(** * fas_exp: dual-stream (RGB + Depth) face anti-spoofing network

    A shallow embedding of the repository's four source files:

    - [model/cd_resnet.py]  (module [Arch]):  the construction of the
      central-difference ResNet backbone and of the two single-stream nets;
    - [util/loss.py]        (module [Loss]):  the cross-modal focal loss and
      the total loss;
    - [model/rgbd_model.py] (module [Model]): the forward pass of the
      dual-stream model on shaped tensors;
    - [test.py]             (module [Eval]):  the evaluation script.

    Python integers are [Z], Python floats are taken as exact reals [R],
    Python exceptions are the left summand of [exn + A]. *)

From stdpp Require Import gmap strings list.
From Stdlib Require Import ZArith Reals Lra Lia.

Set Warnings "-register-all".

Local Open Scope Z_scope.

(** ** Python exceptions and the error monad *)

Inductive exn : Type :=
| ValueError (msg : string)
| NotImplementedError (msg : string)
| TypeError (msg : string)
| IndexError (msg : string)
| RuntimeError (msg : string)
| NameError (name : string).

Definition result (A : Type) : Type := exn + A.

Definition raise {A : Type} (e : exn) : result A := inl e.
Definition ok {A : Type} (a : A) : result A := inr a.

Definition rbind {A B : Type} (c : result A) (k : A -> result B) : result B :=
  match c with
  | inl e => inl e
  | inr a => k a
  end.

Notation "'let*' p ':=' c 'in' k" := (rbind c (fun p => k))
  (at level 10, p pattern, c at level 200, k at level 200).



Definition completes {A : Type} (c : result A) : Prop :=
  exists a, c = inr a.

(** ** model/cd_resnet.py *)

Module Arch.

(** Keyword arguments of a convolution constructor.  An argument the call
    site leaves out is [None]: the class default applies. *)
Record conv_kwargs : Type := ConvKw {
  in_channels : Z;
  out_channels : Z;
  kernel_size : Z;
  stride : Z;
  padding : option Z;
  groups : option Z;
  bias : option bool;
  dilation : option Z
}.

(** The modules the file instantiates.  [CD_Conv2d] (model/conv.py) and
    [Sim_AM] (model/attention.py) are imported by the file; their classes
    are taken as constructors, like the framework's own layers. *)
Inductive layer : Type :=
| CD_Conv2d (kw : conv_kwargs)
| Conv2d (kw : conv_kwargs)
| BatchNorm2d (num_features : Z)
| ReLU (inplace : bool)
| MaxPool2d (kernel_size stride padding : Z)
| AdaptiveAvgPool2d (output_size : Z * Z)
| Upsample (size : Z * Z) (mode : string)
| Linear (in_features out_features : Z)
| Sigmoid
| Sim_AM (planes : Z)
| Sequential (children : list layer)
| BasicBlock (conv1 bn1 relu conv2 bn2 : layer)
             (downsample : option layer) (stride : Z).

(** def conv3x3(in_planes, out_planes, stride=1, groups=1, dilation=1) *)
Definition conv3x3 (in_planes out_planes : Z)
    (stride groups dilation : Z) : layer :=
  CD_Conv2d {| in_channels := in_planes; out_channels := out_planes;
               kernel_size := 3; stride := stride;
               padding := Some dilation; groups := Some groups;
               bias := Some false; dilation := Some dilation |}.

(** def conv1x1(in_planes, out_planes, stride=1) *)
Definition conv1x1 (in_planes out_planes : Z) (stride : Z) : layer :=
  Conv2d {| in_channels := in_planes; out_channels := out_planes;
            kernel_size := 1; stride := stride;
            padding := None; groups := None;
            bias := Some false; dilation := None |}.

(** [norm_layer: Optional[Callable[..., nn.Module]]] *)
Definition norm_layer_t : Type := option (Z -> layer).

Definition norm_layer_or_default (norm_layer : norm_layer_t) : Z -> layer :=
  match norm_layer with
  | None => BatchNorm2d
  | Some f => f
  end.

(** [att_mod == 'SimAM'] *)
Definition is_SimAM (att_mod : option string) : bool :=
  match att_mod with
  | Some s => String.eqb s "SimAM"
  | None => false
  end.

(** BasicBlock.__init__(self, inplanes, planes, stride=1, downsample=None,
      groups=1, base_width=64, dilation=1, norm_layer=None, att_mod=None) *)
Definition BasicBlock_init (inplanes planes : Z) (stride : Z)
    (downsample : option layer) (groups base_width dilation : Z)
    (norm_layer : norm_layer_t) (att_mod : option string) : result layer :=
  let norm_layer := norm_layer_or_default norm_layer in
  if negb (groups =? 1) || negb (base_width =? 64) then
    raise (ValueError "BasicBlock only supports groups=1 and base_width=64")
  else if dilation >? 1 then
    raise (NotImplementedError "Dilation > 1 not supported in BasicBlock")
  else
    let conv1 := conv3x3 inplanes planes stride 1 1 in
    let bn1 := norm_layer planes in
    let relu := ReLU true in
    let conv2 := conv3x3 planes planes 1 1 1 in
    let bn2 := norm_layer planes in
    let conv2 :=
      if is_SimAM att_mod then Sequential [conv2; Sim_AM planes] else conv2 in
    ok (BasicBlock conv1 bn1 relu conv2 bn2 downsample stride).

(** The backbone's [block] argument: one of the two block classes.
    [Bottleneck.__init__] has no [att_mod] parameter. *)
Inductive block_t : Type := BasicBlock_cls | Bottleneck_cls.

Definition expansion (block : block_t) : Z :=
  match block with
  | BasicBlock_cls => 1
  | Bottleneck_cls => 4
  end.

(** A call [block(inplanes, planes, stride, downsample, groups, base_width,
    dilation, norm_layer, att_mod=att_mod)], as [_make_layer] writes both of
    its calls (the second with the defaults [stride=1], [downsample=None]).
    The keyword [att_mod] is always passed, and binding it fails for
    [Bottleneck] before the body of its [__init__] runs. *)
Definition block_call (block : block_t) (inplanes planes stride : Z)
    (downsample : option layer) (groups base_width dilation : Z)
    (norm_layer : norm_layer_t) (att_mod : option string) : result layer :=
  match block with
  | BasicBlock_cls =>
      BasicBlock_init inplanes planes stride downsample groups base_width
                      dilation norm_layer att_mod
  | Bottleneck_cls =>
      raise (TypeError "__init__() got an unexpected keyword argument 'att_mod'")
  end.

(** The attributes of [self] that [ResNet.__init__] sets before it builds
    the residual layers and that [_make_layer] reads and updates. *)
Record resnet_attrs : Type := Attrs {
  _norm_layer : Z -> layer;
  inplanes : Z;
  dilation_ : Z;
  groups_ : Z;
  base_width : Z
}.

(** [for _ in range(1, blocks): layers.append(block(self.inplanes, planes,
      groups=..., base_width=..., dilation=self.dilation, norm_layer=...,
      att_mod=att_mod))], [n] iterations left. *)
Fixpoint append_blocks (self : resnet_attrs) (block : block_t) (planes : Z)
    (att_mod : option string) (n : nat) (layers : list layer)
    : result (list layer) :=
  match n with
  | O => ok layers
  | S n' =>
      let* b := block_call block (inplanes self) planes 1 None (groups_ self)
              (base_width self) (dilation_ self) (Some (_norm_layer self))
              att_mod in
      append_blocks self block planes att_mod n' (layers ++ [b])
  end.

(** ResNet._make_layer(self, block, planes, blocks, stride=1, dilate=False,
      att_mod=None); returns the layer and the updated attributes. *)
Definition _make_layer (self : resnet_attrs) (block : block_t)
    (planes blocks : Z) (stride : Z) (dilate : bool)
    (att_mod : option string) : result (layer * resnet_attrs) :=
  let norm_layer := _norm_layer self in
  let previous_dilation := dilation_ self in
  let '(self, stride) :=
    if dilate
    then (Attrs (_norm_layer self) (inplanes self) (dilation_ self * stride)
                (groups_ self) (base_width self), 1)
    else (self, stride) in
  let downsample :=
    if negb (stride =? 1) || negb (inplanes self =? planes * expansion block)
    then Some (Sequential [conv1x1 (inplanes self) (planes * expansion block)
                                   stride;
                           norm_layer (planes * expansion block)])
    else None in
  let* first := block_call block (inplanes self) planes stride downsample
              (groups_ self) (base_width self) previous_dilation
              (Some norm_layer) att_mod in
  let self := Attrs (_norm_layer self) (planes * expansion block)
                    (dilation_ self) (groups_ self) (base_width self) in
  let* layers := append_blocks self block planes att_mod
               (Z.to_nat (blocks - 1)) [first] in
  ok (Sequential layers, self).

(** The module attributes of a constructed [ResNet]. *)
Record ResNet : Type := MkResNet {
  conv1 : layer;
  bn1 : layer;
  relu : layer;
  maxpool : layer;
  layer1 : layer;
  layer2 : layer;
  layer3 : layer;
  layer4 : layer;
  avgpool : layer;
  fc : layer;
  downsample_8x8 : layer
}.

(** [xs[i]] for a literal index [i >= 0]. *)
Definition getitem {A : Type} (xs : list A) (i : nat) : result A :=
  match nth_error xs i with
  | Some x => ok x
  | None => raise (IndexError "list index out of range")
  end.

(** [in_mod == 'Depth'] *)
Definition is_Depth (in_mod : option string) : bool :=
  match in_mod with
  | Some s => String.eqb s "Depth"
  | None => false
  end.

(** ResNet.__init__(self, block, layers, num_classes=1000,
      zero_init_residual=False, groups=1, width_per_group=64,
      replace_stride_with_dilation=None, norm_layer=None, in_mod=None,
      att_mod=None).  The two loops that close the constructor only set
    weights of modules already built; they are not part of the structure. *)
Definition ResNet_init (block : block_t) (layers : list Z) (num_classes : Z)
    (zero_init_residual : bool) (groups width_per_group : Z)
    (replace_stride_with_dilation : option (list bool))
    (norm_layer : norm_layer_t) (in_mod att_mod : option string)
    : result ResNet :=
  let norm_layer := norm_layer_or_default norm_layer in
  let replace_stride_with_dilation :=
    match replace_stride_with_dilation with
    | None => [false; false; false]
    | Some l => l
    end in
  if negb (Nat.eqb (length replace_stride_with_dilation) 3) then
    raise (ValueError
      "replace_stride_with_dilation should be None or a 3-element tuple")
  else
    let self := Attrs norm_layer 64 1 groups width_per_group in
    let conv1 :=
      if is_Depth in_mod
      then CD_Conv2d {| in_channels := 1; out_channels := inplanes self;
                        kernel_size := 7; stride := 2; padding := Some 3;
                        groups := None; bias := Some false;
                        dilation := None |}
      else CD_Conv2d {| in_channels := 3; out_channels := inplanes self;
                        kernel_size := 7; stride := 2; padding := Some 3;
                        groups := None; bias := Some false;
                        dilation := None |} in
    let bn1 := norm_layer (inplanes self) in
    let relu := ReLU true in
    let maxpool := MaxPool2d 3 2 1 in
    let* n0 := getitem layers 0 in
    let* (layer1, self) := _make_layer self block 64 n0 1 false att_mod in
    let* n1 := getitem layers 1 in
    let* d0 := getitem replace_stride_with_dilation 0 in
    let* (layer2, self) := _make_layer self block 128 n1 2 d0 att_mod in
    let* n2 := getitem layers 2 in
    let* d1 := getitem replace_stride_with_dilation 1 in
    let* (layer3, self) := _make_layer self block 256 n2 2 d1 att_mod in
    let* n3 := getitem layers 3 in
    let* d2 := getitem replace_stride_with_dilation 2 in
    let* (layer4, self) := _make_layer self block 512 n3 2 d2 att_mod in
    let avgpool := AdaptiveAvgPool2d (1, 1) in
    let fc := Linear (512 * expansion block) num_classes in
    let downsample_8x8 := Upsample (4, 4) "bilinear" in
    ok (MkResNet conv1 bn1 relu maxpool layer1 layer2 layer3 layer4
                 avgpool fc downsample_8x8).

(** def resnet18(pretrained=False, progress=True, **kwargs), through
    [_resnet('resnet18', BasicBlock, [2, 2, 2, 2], pretrained, progress,
    **kwargs)], for the two keywords the repository passes. *)
Definition resnet18 (in_mod att_mod : option string) : result ResNet :=
  ResNet_init BasicBlock_cls [2; 2; 2; 2] 1000 false 1 64 None None
              in_mod att_mod.

(** The attributes of [RGB_net] and of [Depth_net]. *)
Record stream_net : Type := MkStream {
  net : ResNet;
  gavg_pool : layer;
  classifier : layer
}.

(** RGB_net.__init__ *)
Definition RGB_net_init : result stream_net :=
  let* net := resnet18 None (Some "SimAM") in
  ok (MkStream net (AdaptiveAvgPool2d (1, 1))
               (Sequential [Linear 960 1; Sigmoid])).

(** Depth_net.__init__ *)
Definition Depth_net_init : result stream_net :=
  let* net := resnet18 (Some "Depth") (Some "SimAM") in
  ok (MkStream net (AdaptiveAvgPool2d (1, 1))
               (Sequential [Linear 960 1; Sigmoid])).

(** [nn.Module.modules()]: a module and everything registered below it. *)
Fixpoint modules (m : layer) : list layer :=
  m :: match m with
       | Sequential children => flat_map modules children
       | BasicBlock c1 b1 r c2 b2 ds _ =>
           modules c1 ++ modules b1 ++ modules r ++ modules c2 ++ modules b2
           ++ match ds with Some d => modules d | None => [] end
       | _ => []
       end.

Definition ResNet_children (r : ResNet) : list layer :=
  [conv1 r; bn1 r; relu r; maxpool r; layer1 r; layer2 r; layer3 r; layer4 r;
   avgpool r; fc r; downsample_8x8 r].

Definition ResNet_modules (r : ResNet) : list layer :=
  flat_map modules (ResNet_children r).

(** The residual blocks of a backbone. *)
Definition is_BasicBlock (m : layer) : bool :=
  match m with BasicBlock _ _ _ _ _ _ _ => true | _ => false end.

Definition ResNet_blocks (r : ResNet) : list layer :=
  filter (fun m => is_BasicBlock m = true) (ResNet_modules r).

(** A convolution with a 3x3 kernel that is not central-difference. *)
Definition is_plain_3x3 (m : layer) : bool :=
  match m with
  | Conv2d kw => kernel_size kw =? 3
  | _ => false
  end.

(** The second convolution of a block is followed by the attention layer. *)
Definition wraps_Sim_AM (blk : layer) : bool :=
  match blk with
  | BasicBlock _ _ _ (Sequential [CD_Conv2d _; Sim_AM _]) _ _ _ => true
  | _ => false
  end.

(** What [BasicBlock.__init__] leaves in [self.conv2] *)
Definition conv2_of (att_mod : option string) (planes : Z) : layer :=
  if is_SimAM att_mod
  then Sequential [conv3x3 planes planes 1 1 1; Sim_AM planes]
  else conv3x3 planes planes 1 1 1.

(** A block as [_make_layer] builds it under the norm layer [nl]. *)
Definition built_block (nl : Z -> layer) (att_mod : option string)
    (m : layer) : Prop :=
  exists inplanes planes stride ds,
    m = BasicBlock (conv3x3 inplanes planes stride 1 1) (nl planes)
                   (ReLU true) (conv2_of att_mod planes) (nl planes)
                   ds stride
    /\ (ds = None
        \/ exists i o s, ds = Some (Sequential [conv1x1 i o s; nl o])).

(** def resnet34(pretrained=False, progress=True, **kwargs) and
    def resnet50(pretrained=False, progress=True, **kwargs), through
    [_resnet], with the keyword arguments of [ResNet.__init__]. *)
Definition resnet34 (num_classes : Z) (zero_init_residual : bool)
    (groups width_per_group : Z)
    (replace_stride_with_dilation : option (list bool))
    (norm_layer : norm_layer_t) (in_mod att_mod : option string)
    : result ResNet :=
  ResNet_init BasicBlock_cls [3; 4; 6; 3] num_classes zero_init_residual
              groups width_per_group replace_stride_with_dilation norm_layer
              in_mod att_mod.


(** The blocks of a residual layer. *)
Definition layer_children (m : layer) : list layer :=
  match m with
  | Sequential children => children
  | _ => []
  end.

(** Input and output channels of the first convolution of a block. *)
Definition block_channels (m : layer) : option (Z * Z) :=
  match m with
  | BasicBlock (CD_Conv2d kw) _ _ _ _ _ _ =>
      Some (in_channels kw, out_channels kw)
  | _ => None
  end.

(** From [cin] channels on, every block takes what the one before it
    gives; the result is the number of channels that leaves the last one. *)
Fixpoint chained (cin : Z) (blocks : list layer) : option Z :=
  match blocks with
  | [] => Some cin
  | b :: rest =>
      match block_channels b with
      | Some (i, o) => if i =? cin then chained o rest else None
      | None => None
      end
  end.

Definition option_bind_Z (c : option Z) (k : Z -> option Z) : option Z :=
  match c with
  | Some x => k x
  | None => None
  end.

(** The identity branch of a block fits its residual branch: without a
    [downsample] the first convolution keeps channels and resolution, and a
    [downsample] is a 1x1 convolution with the channels and the stride of
    the first convolution. *)
Definition residual_compatible (m : layer) : bool :=
  match m with
  | BasicBlock (CD_Conv2d k1) _ _ _ _ None _ =>
      (in_channels k1 =? out_channels k1) && (stride k1 =? 1)
  | BasicBlock (CD_Conv2d k1) _ _ _ _ (Some (Sequential [Conv2d kd; _])) _ =>
      (kernel_size kd =? 1) && (in_channels kd =? in_channels k1)
      && (out_channels kd =? out_channels k1) && (stride kd =? stride k1)
  | _ => false
  end.

Definition is_Sim_AM_layer (m : layer) : bool :=
  match m with
  | Sim_AM _ => true
  | _ => false
  end.

(** The first block of a layer and the block the loop repeats. *)
Definition first_block (self : resnet_attrs) (planes stride : Z)
    (dilate : bool) (att_mod : option string) : layer :=
  let stride' := if dilate then 1 else stride in
  BasicBlock (conv3x3 (inplanes self) planes stride' 1 1)
             (_norm_layer self planes) (ReLU true) (conv2_of att_mod planes)
             (_norm_layer self planes)
             (if negb (stride' =? 1) || negb (inplanes self =? planes)
              then Some (Sequential [conv1x1 (inplanes self) planes stride';
                                     _norm_layer self planes])
              else None)
             stride'.

Definition next_block (self : resnet_attrs) (planes : Z)
    (att_mod : option string) : layer :=
  BasicBlock (conv3x3 planes planes 1 1 1)
             (_norm_layer self planes) (ReLU true) (conv2_of att_mod planes)
             (_norm_layer self planes) None 1.

Definition next_attrs (self : resnet_attrs) (planes stride : Z)
    (dilate : bool) : resnet_attrs :=
  Attrs (_norm_layer self) planes
        (if dilate then dilation_ self * stride else dilation_ self)
        (groups_ self) (base_width self).

(** [replace_stride_with_dilation], with [None] replaced as the
    constructor does. *)
Definition rswd_or_default (rswd : option (list bool)) : list bool :=
  match rswd with
  | None => [false; false; false]
  | Some l => l
  end.

End Arch.

(** ** Tensors

    A contiguous tensor: its shape and its elements in row-major order. *)

Module Tensor.

Local Open Scope R_scope.

Record tensor : Type := MkTensor {
  shape : list nat;
  data : list R
}.

Definition numel_of (shape : list nat) : nat := foldr Nat.mul 1%nat shape.

Definition shape_eqb (s1 s2 : list nat) : bool :=
  bool_decide (s1 = s2).

(** Elementwise operations.  The binary ones are used between operands of
    one shape only (no broadcasting between tensors arises in the code). *)
Definition tmap (f : R -> R) (x : tensor) : tensor :=
  MkTensor (shape x) (map f (data x)).

Definition tzip (f : R -> R -> R) (x y : tensor) : tensor :=
  MkTensor (shape x) (zip_with f (data x) (data y)).

Definition tadd : tensor -> tensor -> tensor := tzip Rplus.
Definition tmul : tensor -> tensor -> tensor := tzip Rmult.
Definition tdiv : tensor -> tensor -> tensor := tzip Rdiv.
(** [x + c], [c * x], [c - x], [x ** n], [-x] for a Python scalar [c] *)
Definition tadds (x : tensor) (c : R) : tensor := tmap (fun v => v + c) x.
Definition smul (c : R) (x : tensor) : tensor := tmap (fun v => c * v) x.
Definition ssub (c : R) (x : tensor) : tensor := tmap (fun v => c - v) x.
Definition tpow (x : tensor) (n : nat) : tensor := tmap (fun v => v ^ n) x.
Definition tneg : tensor -> tensor := tmap Ropp.
Definition texp : tensor -> tensor := tmap exp.

Definition sum_R (l : list R) : R := foldr Rplus 0 l.

(** [torch.mean(x)] *)
Definition tmean (x : tensor) : R := sum_R (data x) / INR (length (data x)).

(** [tensor.detach()]: the same values, cut from the autograd graph. *)
Definition detach (x : tensor) : tensor := x.

End Tensor.

(** ** util/loss.py *)

Module Loss.

Import Tensor.
Local Open Scope R_scope.

(** The logarithm as [binary_cross_entropy] takes it: clamped below at
    [-100], so that [log 0] contributes [-100] and not an infinity. *)
Definition clamped_log (x : R) : R :=
  if Rle_dec x 0 then -100 else Rmax (ln x) (-100).

(** One element of [func.binary_cross_entropy(input, target, reduce=False)] *)
Definition bce (x y : R) : R :=
  - (y * clamped_log x + (1 - y) * clamped_log (1 - x)).

Definition in_unit_interval (x : R) : bool :=
  if Rle_dec 0 x then (if Rle_dec x 1 then true else false) else false.

(** [func.binary_cross_entropy(input, target, reduce=False)]: the framework
    refuses a target whose size differs from the input's and an input with
    an element outside [0, 1]. *)
Definition binary_cross_entropy (input target : tensor) : result tensor :=
  if negb (shape_eqb (shape target) (shape input)) then
    raise (ValueError "Using a target size that is different to the input size")
  else if negb (forallb in_unit_interval (data input)) then
    raise (RuntimeError "all elements of input should be between 0 and 1")
  else ok (tzip bce input target).

(** class CMFLoss: the attributes set by
    [__init__(self, alpha=1, gamma=2, binary=False, multiplier=2, sg=False)] *)
Record CMFLoss : Type := MkCMFLoss {
  alpha : R;
  gamma : nat;
  binary : bool;
  multiplier : R;
  sg : bool
}.

Definition CMFLoss_default : CMFLoss :=
  {| alpha := 1; gamma := 2; binary := false; multiplier := 2; sg := false |}.

(** CMFLoss.forward(self, inputs_a, inputs_b, targets) *)
Definition CMFLoss_forward (self : CMFLoss)
    (inputs_a inputs_b targets : tensor) : result R :=
  let* bce_loss_a := binary_cross_entropy inputs_a targets in
  let* bce_loss_b := binary_cross_entropy inputs_b targets in
  let pt_a := texp (tneg bce_loss_a) in
  let pt_b := texp (tneg bce_loss_b) in
  let eps := 0.000000001 in
  let '(wt_a, wt_b) :=
    if sg self then
      let d_pt_a := detach pt_a in
      let d_pt_b := detach pt_b in
      (tdiv (tmul (tadds d_pt_b eps) (tmul (smul (multiplier self) pt_a) d_pt_b))
            (tadds (tadd pt_a d_pt_b) eps),
       tdiv (tmul (tadds d_pt_a eps) (tmul (smul (multiplier self) d_pt_a) pt_b))
            (tadds (tadd d_pt_a pt_b) eps))
    else
      (tdiv (tmul (tadds pt_b eps) (tmul (smul (multiplier self) pt_a) pt_b))
            (tadds (tadd pt_a pt_b) eps),
       tdiv (tmul (tadds pt_a eps) (tmul (smul (multiplier self) pt_a) pt_b))
            (tadds (tadd pt_a pt_b) eps)) in
  let '(wt_a, wt_b) :=
    if binary self
    then (tmul wt_a (ssub 1 targets), tmul wt_b (ssub 1 targets))
    else (wt_a, wt_b) in
  let f_loss_a := tmul (smul (alpha self) (tpow (ssub 1 wt_a) (gamma self)))
                       bce_loss_a in
  let f_loss_b := tmul (smul (alpha self) (tpow (ssub 1 wt_b) (gamma self)))
                       bce_loss_b in
  let loss := 0.5 * tmean f_loss_a + 0.5 * tmean f_loss_b in
  ok loss.

Section Total_loss.

(** [nn.CrossEntropyLoss()], the framework's criterion. *)
Variable CrossEntropyLoss : tensor -> tensor -> result R.

(** class Total_loss: [__init__(self, lamb=0.7)] *)
Record Total_loss : Type := MkTotal_loss {
  lamb : R;
  criterion_cmfl : CMFLoss
}.

Definition Total_loss_default : Total_loss :=
  {| lamb := 0.7; criterion_cmfl := CMFLoss_default |}.

(** The term [self.criterion_cmfl(p,q,targets)+self.criterion_cmfl(q,p,targets)] *)
Definition loss_pq_term (self : Total_loss) (p q targets : tensor) : result R :=
  let* l1 := CMFLoss_forward (criterion_cmfl self) p q targets in
  let* l2 := CMFLoss_forward (criterion_cmfl self) q p targets in
  ok (l1 + l2).

(** Total_loss.forward(self, p, q, r, targets) *)
Definition Total_loss_forward (self : Total_loss)
    (p q r targets : tensor) : result R :=
  let* loss_r := CrossEntropyLoss r targets in
  let* loss_pq := loss_pq_term self p q targets in
  let loss := (1 - lamb self) * loss_r + lamb self * loss_pq in
  ok loss.

End Total_loss.

(** The loss of the specification, element by element: with
    [p_a = exp(-BCE(a,t))], [p_b = exp(-BCE(b,t))] and [eps = 1e-9],
    [w_a = (p_b+eps)*(2*p_a*p_b)/(p_a+p_b+eps)] and
    [w_b = (p_a+eps)*(2*p_a*p_b)/(p_a+p_b+eps)]. *)
Definition spec_p (x t : R) : R := exp (- bce x t).

Definition spec_w_a (p_a p_b : R) : R :=
  (p_b + 1e-9) * (2 * p_a * p_b) / (p_a + p_b + 1e-9).

Definition spec_w_b (p_a p_b : R) : R :=
  (p_a + 1e-9) * (2 * p_a * p_b) / (p_a + p_b + 1e-9).

(** [(1-w_a)^2 * BCE(a,t)] and [(1-w_b)^2 * BCE(b,t)] at one position *)
Definition spec_focal_a (a b t : R) : R :=
  (1 - spec_w_a (spec_p a t) (spec_p b t)) ^ 2 * bce a t.

Definition spec_focal_b (a b t : R) : R :=
  (1 - spec_w_b (spec_p a t) (spec_p b t)) ^ 2 * bce b t.

Definition mean_R (l : list R) : R := sum_R l / INR (length l).

Fixpoint map3 {A B C D : Type} (f : A -> B -> C -> D)
    (l1 : list A) (l2 : list B) (l3 : list C) : list D :=
  match l1, l2, l3 with
  | a :: l1, b :: l2, c :: l3 => f a b c :: map3 f l1 l2 l3
  | _, _, _ => []
  end.

(** [0.5*mean((1-w_a)^2 * BCE(a,t)) + 0.5*mean((1-w_b)^2 * BCE(b,t))] *)
Definition spec_cmfl (a b t : list R) : R :=
  0.5 * mean_R (map3 spec_focal_a a b t)
  + 0.5 * mean_R (map3 spec_focal_b a b t).

(** The weighted losses [f_loss_a] and [f_loss_b] of [CMFLoss.forward] with
    [sg=False], as computed from the two cross-entropies. *)
Definition f_losses (self : CMFLoss) (bce_loss_a bce_loss_b targets : tensor)
    : tensor * tensor :=
  let pt_a := texp (tneg bce_loss_a) in
  let pt_b := texp (tneg bce_loss_b) in
  let eps := 0.000000001 in
  let wt_a := tdiv (tmul (tadds pt_b eps) (tmul (smul (multiplier self) pt_a) pt_b))
                   (tadds (tadd pt_a pt_b) eps) in
  let wt_b := tdiv (tmul (tadds pt_a eps) (tmul (smul (multiplier self) pt_a) pt_b))
                   (tadds (tadd pt_a pt_b) eps) in
  let '(wt_a, wt_b) :=
    if binary self
    then (tmul wt_a (ssub 1 targets), tmul wt_b (ssub 1 targets))
    else (wt_a, wt_b) in
  (tmul (smul (alpha self) (tpow (ssub 1 wt_a) (gamma self))) bce_loss_a,
   tmul (smul (alpha self) (tpow (ssub 1 wt_b) (gamma self))) bce_loss_b).

(** Entries of a probability tensor and of a target tensor, as the
    specification restricts them. *)
Definition probability (x : R) : Prop := 0 < x <= 1.
Definition binary_target (y : R) : Prop := y = 0 \/ y = 1.

End Loss.

(** ** model/rgbd_model.py, with the forward passes of model/cd_resnet.py *)

Module Model.

Import Tensor.
Local Open Scope nat_scope.

(** [count] consecutive blocks of [size] elements *)
Fixpoint chunks (count size : nat) (l : list R) : list (list R) :=
  match count with
  | O => []
  | S count' => take size l :: chunks count' size (drop size l)
  end.

(** [x[:,0:1,:,:]]: four indices need four dimensions; of every sample the
    first channel is kept (none, if there is no channel). *)
Definition getitem_channel0 (x : tensor) : result tensor :=
  match shape x with
  | b :: c :: h :: w :: rest =>
      let inner := numel_of (h :: w :: rest) in
      ok (MkTensor (b :: Nat.min c 1 :: h :: w :: rest)
            (flat_map (take (Nat.min c 1 * inner))
                      (chunks b (c * inner) (data x))))
  | _ => raise (IndexError "too many indices for tensor")
  end.

(** The element at [x[b, c, h, w]] of a four-dimensional tensor *)
Definition get4 (x : tensor) (b c h w : nat) : option R :=
  match shape x with
  | [_; C; H; W] => data x !! (((b * C + c) * H + h) * W + w)
  | _ => None
  end.

Definition mean_R (l : list R) : R := (sum_R l / INR (length l))%R.

(** [nn.AdaptiveAvgPool2d(1)]: the mean of every channel's plane. *)
Definition AdaptiveAvgPool2d_1 (x : tensor) : result tensor :=
  match shape x with
  | [b; c; h; w] =>
      if (c * h * w =? 0)
      then raise (RuntimeError "adaptive_avg_pool2d(): non-zero size expected")
      else ok (MkTensor [b; c; 1; 1]
                 (map mean_R (chunks (b * c) (h * w) (data x))))
  | [c; h; w] =>
      if (h * w =? 0)
      then raise (RuntimeError "adaptive_avg_pool2d(): non-zero size expected")
      else ok (MkTensor [c; 1; 1]
                 (map mean_R (chunks c (h * w) (data x))))
  | _ => raise (RuntimeError "adaptive_avg_pool2d(): Expected 3D or 4D tensor")
  end.

(** [x.squeeze()]: every dimension of size one is removed. *)
Definition squeeze (x : tensor) : tensor :=
  MkTensor (filter (fun d => d <> 1) (shape x)) (data x).

(** [func.sigmoid] and [nn.Sigmoid()] *)
Definition sigmoid (x : tensor) : tensor :=
  tmap (fun v => 1 / (1 + exp (- v)))%R x.

(** The parameters of an [nn.Linear]: one weight row per output feature. *)
Record linear_params : Type := MkLinear {
  weight : list (list R);
  bias : list R
}.

Definition dot (u v : list R) : R := sum_R (zip_with Rmult u v).

(** [nn.Linear(in_features, out_features)] applied to [x]: the last
    dimension of [x] must be [in_features]. *)
Definition Linear (in_features out_features : nat) (theta : linear_params)
    (x : tensor) : result tensor :=
  match reverse (shape x) with
  | last :: lead =>
      if negb (last =? in_features) then
        raise (RuntimeError "mat1 and mat2 shapes cannot be multiplied")
      else
        ok (MkTensor (reverse lead ++ [out_features])
              (flat_map
                 (fun row =>
                    zip_with (fun w b => (dot w row + b)%R)
                             (weight theta) (bias theta))
                 (chunks (numel_of lead) in_features (data x))))
  | [] => raise (RuntimeError "mat1 and mat2 shapes cannot be multiplied")
  end.

(** [nn.Sequential(nn.Linear(in_features, 1), nn.Sigmoid())] *)
Definition classifier_forward (in_features : nat) (theta : linear_params)
    (x : tensor) : result tensor :=
  let* y := Linear in_features 1 theta x in
  ok (sigmoid y).

(** [torch.cat([x, y], dim=1)] *)
Definition cat_dim1 (x y : tensor) : result tensor :=
  match shape x with
  | bx :: nx :: rx =>
      match shape y with
      | by_ :: ny :: ry =>
          if negb (shape_eqb (bx :: rx) (by_ :: ry)) then
            raise (RuntimeError
              "Sizes of tensors must match except in dimension 1")
          else
            ok (MkTensor (bx :: (nx + ny) :: rx)
                  (concat (zip_with app
                     (chunks bx (nx * numel_of rx) (data x))
                     (chunks by_ (ny * numel_of ry) (data y)))))
      | _ => raise (RuntimeError
                      "Tensors must have same number of dimensions")
      end
  | _ => raise (IndexError
      "Dimension out of range (expected to be in range of [-1, 0], but got 1)")
  end.

(** A single-stream net ([RGB_net], [Depth_net]) with its parameters fixed:
    the backbone [self.net] as the function it computes (its layers are
    those of [Arch.resnet18]; the forward passes of [CD_Conv2d] and [Sim_AM]
    are in model/conv.py and model/attention.py), and the weights of
    [self.classifier]. *)
Record stream_net : Type := MkStreamNet {
  net : tensor -> result tensor;
  stream_classifier : linear_params
}.

(** RGB_net.forward(self, x) and Depth_net.forward(self, x): the two bodies
    are the same. *)
Definition stream_forward (self : stream_net) (x : tensor)
    : result (tensor * tensor) :=
  let* y := net self x in
  let* pooled := AdaptiveAvgPool2d_1 y in
  let gap := squeeze pooled in
  let gap := sigmoid gap in
  let* p := classifier_forward 960 (stream_classifier self) gap in
  ok (gap, p).

(** class RGBD_model *)
Record RGBD_model : Type := MkRGBD {
  rgb_net : stream_net;
  depth_net : stream_net;
  classifier : linear_params
}.

(** RGBD_model.forward(self, x_rgb, x_d) *)
Definition RGBD_forward (self : RGBD_model) (x_rgb x_d : tensor)
    : result (tensor * tensor * tensor * tensor) :=
  let* x_d := getitem_channel0 x_d in
  let* (gap_rgb, p) := stream_forward (rgb_net self) x_rgb in
  let* (gap_d, q) := stream_forward (depth_net self) x_d in
  let* gap := cat_dim1 gap_rgb gap_d in
  let* r := classifier_forward 1920 (classifier self) gap in
  ok (gap, r, p, q).

(** A stand-in model to run the forward pass on: each backbone answers a
    batch of [b] images with [b] stacks of 960 constant 4x4 feature maps,
    and all weights are zero. *)
Definition constant_backbone (x : tensor) : result tensor :=
  match shape x with
  | b :: _ => ok (MkTensor [b; 960; 4; 4] (repeat 0%R (b * (960 * 16))))
  | [] => raise (RuntimeError "expected a batch of images")
  end.

Definition constant_model : RGBD_model :=
  {| rgb_net := MkStreamNet constant_backbone
                            (MkLinear [repeat 0%R 960] [0%R]);
     depth_net := MkStreamNet constant_backbone
                              (MkLinear [repeat 0%R 960] [0%R]);
     classifier := MkLinear [repeat 0%R 1920] [0%R] |}.

(** Two four-dimensional inputs of one batch size and one image size, each
    with at least one channel, whose channels 0 hold the same values. *)
Definition agree_on_channel0 (x x' : tensor) : Prop :=
  exists B C C' H W,
    shape x = [B; C; H; W] /\ shape x' = [B; C'; H; W] /\
    1 <= C /\ 1 <= C' /\
    forall b h w, b < B -> h < H -> w < W ->
                  get4 x b 0 h w = get4 x' b 0 h w.

(** A value strictly between 0 and 1, and a tensor of such values. *)
Definition open_unit (v : R) : Prop := (0 < v < 1)%R.

Definition scores (x : tensor) : Prop := Forall open_unit (data x).

(** The element count agrees with the shape. *)
Definition well_shaped (x : tensor) : Prop :=
  length (data x) = numel_of (shape x).

End Model.

(** ** test.py *)

Module Eval.

Import Tensor.

(** What the script writes to standard output, one entry per [print]. *)
Inductive event : Type :=
| PrintRule
| PrintScore (r : tensor)
| PrintPred (pred : tensor)
| PrintLabel (label : tensor)
| PrintBatch (i : nat) (acc_val : R)
| PrintAvgAcc (avg : R).

(** A metric object as the loop uses it: [calc_acc(pred, label)], and the
    attribute [avg] as a function of the values passed to [update] so far. *)
Record meter : Type := MkMeter {
  calc_acc : tensor -> tensor -> R;
  avg : list R -> R
}.

(** Objects bound to names of the module.  A class whose instances are
    metric objects carries their behaviour; everything else is opaque. *)
Inductive pyval : Type :=
| PyObject (descr : string)
| PyMeterClass (instance : meter).

(** The names of the [builtins] module. *)
Definition builtins : gset string :=
  list_to_set
    ["abs"; "aiter"; "all"; "anext"; "any"; "ascii"; "bin"; "bool";
     "breakpoint"; "bytearray"; "bytes"; "callable"; "chr"; "classmethod";
     "compile"; "complex"; "delattr"; "dict"; "dir"; "divmod"; "enumerate";
     "eval"; "exec"; "filter"; "float"; "format"; "frozenset"; "getattr";
     "globals"; "hasattr"; "hash"; "help"; "hex"; "id"; "input"; "int";
     "isinstance"; "issubclass"; "iter"; "len"; "list"; "locals"; "map";
     "max"; "memoryview"; "min"; "next"; "object"; "oct"; "open"; "ord";
     "pow"; "print"; "property"; "range"; "repr"; "reversed"; "round";
     "set"; "setattr"; "slice"; "sorted"; "staticmethod"; "str"; "sum";
     "super"; "tuple"; "type"; "vars"; "zip"; "__import__";
     "True"; "False"; "None"; "Ellipsis"; "NotImplemented"; "__debug__";
     "BaseException"; "Exception"; "ArithmeticError"; "AssertionError";
     "AttributeError"; "EOFError"; "ImportError"; "IndexError"; "KeyError";
     "KeyboardInterrupt"; "LookupError"; "MemoryError"; "NameError";
     "NotImplementedError"; "OSError"; "OverflowError"; "RuntimeError";
     "StopIteration"; "SyntaxError"; "SystemExit"; "TypeError";
     "ValueError"; "ZeroDivisionError"; "Warning"; "UserWarning";
     "DeprecationWarning"].

(** What the script is run on: the two classes util/metric.py exports under
    the names the script imports, the model [torch.load] returns, and the
    batches the loader yields. *)
Record environment : Type := MkEnv {
  AvgMeter : pyval;
  Metric : pyval;
  saved_model : Model.RGBD_model;
  test_batches : list (tensor * tensor * tensor)
}.

(** The global names bound when the script reaches [acc = Accuracy()], in
    the order the statements bind them. *)
Definition module_globals (env : environment) : gmap string pyval :=
  let g : gmap string pyval :=
    {[ "__name__" := PyObject "'__main__'" ]} in
  let g := <[ "__file__" := PyObject "path of test.py" ]> g in
  let g := <[ "nan" := PyObject "math.nan" ]> g in
  let g := <[ "os" := PyObject "module os" ]> g in
  let g := <[ "NUL" := PyObject "tarfile.NUL" ]> g in
  let g := <[ "NaN" := PyObject "numpy.NaN" ]> g in
  let g := <[ "torch" := PyObject "module torch" ]> g in
  let g := <[ "nn" := PyObject "module torch.nn" ]> g in
  let g := <[ "DataLoader" := PyObject "class DataLoader" ]> g in
  let g := <[ "transforms" := PyObject "module torchvision.transforms" ]> g in
  let g := <[ "CASIA_SURF" := PyObject "class CASIA_SURF" ]> g in
  let g := <[ "read_cfg" := PyObject "function read_cfg" ]> g in
  let g := <[ "Total_loss" := PyObject "class Total_loss" ]> g in
  let g := <[ "AvgMeter" := AvgMeter env ]> g in
  let g := <[ "Metric" := Metric env ]> g in
  let g := <[ "device" := PyObject "torch.device" ]> g in
  let g := <[ "cfg" := PyObject "dict" ]> g in
  let g := <[ "data_cfg" := PyObject "dict" ]> g in
  let g := <[ "test_cfg" := PyObject "dict" ]> g in
  let g := <[ "root_dir" := PyObject "str" ]> g in
  let g := <[ "save_path" := PyObject "str" ]> g in
  let g := <[ "train_transform" := PyObject "Compose" ]> g in
  let g := <[ "test_set" := PyObject "CASIA_SURF" ]> g in
  let g := <[ "test_loader" := PyObject "DataLoader" ]> g in
  let g := <[ "model" := PyObject "RGBD_model" ]> g in
  g.

(** Name resolution at module level: the globals, then the builtins. *)
Definition resolve (g : gmap string pyval) (name : string) : result pyval :=
  match g !! name return result pyval with
  | Some v => ok v
  | None =>
      if bool_decide (name ∈ builtins)
      then ok (PyObject "builtin")
      else raise (NameError name)
  end.

(** A call [cls()] that is to yield a metric object. *)
Definition instantiate (cls : pyval) : result meter :=
  match cls with
  | PyMeterClass m => ok m
  | PyObject _ => raise (TypeError "object is not callable")
  end.

(** [torch.where(score>0.5, 1., 0.)] *)
Definition predict (score : tensor) : tensor :=
  tmap (fun r => if Rlt_dec 0.5 r then 1%R else 0%R) score.

(** [label.float().reshape(len(label),1)] *)
Definition reshape_label (label : tensor) : result tensor :=
  match shape label with
  | b :: rest =>
      if negb (numel_of rest =? 1)%nat
      then raise (RuntimeError "shape is invalid for input size")
      else ok (MkTensor [b; 1%nat] (data label))
  | [] => raise (TypeError "len() of a 0-d tensor")
  end.

(** One iteration of the loop: the lines it prints and the value it passes
    to [acc.update]. *)
Definition eval_batch (model : Model.RGBD_model) (acc : meter) (i : nat)
    (batch : tensor * tensor * tensor) : result (list event * R) :=
  let '(rgb_map, depth_map, label) := batch in
  let* label := reshape_label label in
  let* output := Model.RGBD_forward model rgb_map depth_map in
  let '(_, r, _, _) := output in
  let score := r in
  let pred := predict score in
  let acc_val := calc_acc acc pred label in
  ok ([PrintRule; PrintScore (Model.squeeze r); PrintPred (Model.squeeze pred);
       PrintLabel (Model.squeeze label); PrintBatch i acc_val], acc_val).

(** [for i, (rgb_map, depth_map, label) in enumerate(test_loader): ...]
    from index [i] on, with the output written and the values passed to
    [acc.update] so far.  An exception ends the run; what was printed before
    it stays printed. *)
Fixpoint eval_loop (model : Model.RGBD_model) (acc : meter) (i : nat)
    (batches : list (tensor * tensor * tensor))
    (stdout : list event) (updates : list R)
    : list event * result (list R) :=
  match batches with
  | [] => (stdout, ok updates)
  | batch :: rest =>
      match eval_batch model acc i batch with
      | inl e => (stdout, raise e)
      | inr (lines, acc_val) =>
          eval_loop model acc (S i) rest (stdout ++ lines)
                    (updates ++ [acc_val])
      end
  end.

(** The [__main__] block from [model = torch.load(save_path)] on: the
    standard output and the exception that ended the run, if any. *)
Definition main (env : environment) : list event * option exn :=
  let g := module_globals env in
  match (let* cls := resolve g "Accuracy" in instantiate cls)
        return list event * option exn with
  | inl e => ([], Some e)
  | inr acc =>
      match eval_loop (saved_model env) acc 0 (test_batches env) [] [] with
      | (stdout, inl e) => (stdout, Some e)
      | (stdout, inr updates) =>
          (stdout ++ [PrintAvgAcc (avg acc updates)], None)
      end
  end.

(** The batch lines of an output: index and accuracy of every
    ['Batch: ...'] line, in the order printed. *)
Fixpoint batch_lines (stdout : list event) : list (nat * R) :=
  match stdout with
  | [] => []
  | PrintBatch i acc_val :: rest => (i, acc_val) :: batch_lines rest
  | _ :: rest => batch_lines rest
  end.

End Eval.

(** * Properties *)

(** ** The error monad *)

Lemma rbind_inr {A B : Type} (c : result A) (k : A -> result B) (b : B) :
  rbind c k = inr b -> exists a, c = inr a /\ k a = inr b.
Proof.
  destruct c as [e | a]; simpl; intros H; [discriminate | eauto].
Qed.

Ltac bind_inv H :=
  let x := fresh "x" in
  let Hx := fresh "Hx" in
  apply rbind_inr in H; destruct H as (x & Hx & H).

(** ** Construction of the backbone *)

Module ArchProofs.

Import Arch.

Lemma BasicBlock_init_inr inplanes planes stride ds groups base_width
    dilation nl att_mod blk :
  BasicBlock_init inplanes planes stride ds groups base_width dilation nl
                  att_mod = inr blk ->
  groups = 1 /\ base_width = 64 /\ dilation <= 1 /\
  blk = BasicBlock (conv3x3 inplanes planes stride 1 1)
                   (norm_layer_or_default nl planes) (ReLU true)
                   (conv2_of att_mod planes)
                   (norm_layer_or_default nl planes) ds stride.
Proof.
  unfold BasicBlock_init, conv2_of.
  destruct (Z.eqb_spec groups 1); simpl; [| discriminate].
  destruct (Z.eqb_spec base_width 64); simpl; [| discriminate].
  destruct (Z.gtb_spec dilation 1); [discriminate |].
  intros [= <-]. repeat split; auto.
Qed.



Lemma block_call_built self_nl block inplanes planes stride ds groups
    base_width dilation att_mod blk :
  (ds = None \/ exists i o s, ds = Some (Sequential [conv1x1 i o s; self_nl o])) ->
  block_call block inplanes planes stride ds groups base_width dilation
             (Some self_nl) att_mod = inr blk ->
  built_block self_nl att_mod blk.
Proof.
  intros Hds. destruct block; simpl; [| discriminate].
  intros H. apply BasicBlock_init_inr in H as (_ & _ & _ & ->).
  exists inplanes, planes, stride, ds. split; [reflexivity | exact Hds].
Qed.

Lemma append_blocks_Forall (P : layer -> Prop) self block planes att_mod n :
  forall layers layers',
  (forall b, block_call block (inplanes self) planes 1 None (groups_ self)
               (base_width self) (dilation_ self) (Some (_norm_layer self))
               att_mod = inr b -> P b) ->
  Forall P layers ->
  append_blocks self block planes att_mod n layers = inr layers' ->
  Forall P layers'.
Proof.
  induction n as [| n IH]; intros layers layers' HP Hl H; simpl in H.
  - injection H as <-. exact Hl.
  - bind_inv H. eapply IH; [exact HP | | exact H].
    apply Forall_app; split; [exact Hl |].
    constructor; [apply HP; exact Hx | constructor].
Qed.

Lemma make_layer_inv self block planes blocks stride dilate att_mod l self' :
  _make_layer self block planes blocks stride dilate att_mod = inr (l, self') ->
  _norm_layer self' = _norm_layer self /\
  exists ls, l = Sequential ls /\
             Forall (built_block (_norm_layer self) att_mod) ls.
Proof.
  unfold _make_layer. intros H.
  destruct dilate; simpl in H.
  - bind_inv H. bind_inv H. injection H as <- <-. simpl. split; [reflexivity |].
    eexists; split; [reflexivity |].
    eapply append_blocks_Forall; [| | exact Hx0].
    + intros b Hb. eapply block_call_built; [| exact Hb]. now left.
    + constructor; [| constructor].
      eapply block_call_built; [| exact Hx].
      match goal with
      | |- context [if ?c then _ else _] => destruct c
      end; [right; eauto | now left].
  - bind_inv H. bind_inv H. injection H as <- <-. simpl. split; [reflexivity |].
    eexists; split; [reflexivity |].
    eapply append_blocks_Forall; [| | exact Hx0].
    + intros b Hb. eapply block_call_built; [| exact Hb]. now left.
    + constructor; [| constructor].
      eapply block_call_built; [| exact Hx].
      match goal with
      | |- context [if ?c then _ else _] => destruct c
      end; [right; eauto | now left].
Qed.

Lemma In_modules_Sequential x ls :
  In x (modules (Sequential ls)) ->
  x = Sequential ls \/ exists m, In m ls /\ In x (modules m).
Proof.
  simpl. intros [<- | H]; [now left | right].
  apply in_flat_map in H. exact H.
Qed.

Lemma built_block_no_plain_3x3 att_mod m x :
  built_block BatchNorm2d att_mod m -> In x (modules m) ->
  is_plain_3x3 x = false.
Proof.
  intros (i & p & s & ds & -> & Hds) Hx.
  unfold conv2_of in Hx.
  destruct Hds as [-> | (i' & o' & s' & ->)];
    destruct (is_SimAM att_mod); simpl in Hx;
    repeat (destruct Hx as [<- | Hx]; [reflexivity |]); destruct Hx.
Qed.

Lemma layer_no_plain_3x3 att_mod ls x :
  Forall (built_block BatchNorm2d att_mod) ls ->
  In x (modules (Sequential ls)) -> is_plain_3x3 x = false.
Proof.
  intros Hls Hx. apply In_modules_Sequential in Hx as [-> | (m & Hm & Hx)].
  - reflexivity.
  - rewrite Forall_forall in Hls.
    eapply built_block_no_plain_3x3; [| exact Hx].
    apply Hls. apply list_elem_of_In. exact Hm.
Qed.

Lemma built_block_wraps m x :
  built_block BatchNorm2d (Some "SimAM"%string) m -> In x (modules m) ->
  is_BasicBlock x = true -> wraps_Sim_AM x = true.
Proof.
  intros (i & p & s & ds & -> & Hds) Hx Hb.
  destruct Hds as [-> | (i' & o' & s' & ->)]; simpl in Hx;
    repeat (destruct Hx as [<- | Hx]; [first [reflexivity | discriminate] |]);
    destruct Hx.
Qed.

Lemma layer_blocks_wrap ls x :
  Forall (built_block BatchNorm2d (Some "SimAM"%string)) ls ->
  In x (modules (Sequential ls)) ->
  is_BasicBlock x = true -> wraps_Sim_AM x = true.
Proof.
  intros Hls Hx Hb.
  apply In_modules_Sequential in Hx as [-> | (m & Hm & Hx)]; [discriminate |].
  rewrite Forall_forall in Hls.
  eapply built_block_wraps; [| exact Hx | exact Hb].
  apply Hls. apply list_elem_of_In. exact Hm.
Qed.

(** What a successful [ResNet.__init__] has built. *)
Lemma ResNet_init_inv block layers num_classes zero_init groups
    width_per_group rswd norm_layer in_mod att_mod r :
  ResNet_init block layers num_classes zero_init groups width_per_group rswd
              norm_layer in_mod att_mod = inr r ->
  let nl := norm_layer_or_default norm_layer in
  (exists kw, conv1 r = CD_Conv2d kw /\ kernel_size kw = 7) /\
  bn1 r = nl 64 /\ relu r = ReLU true /\ maxpool r = MaxPool2d 3 2 1 /\
  (exists l1 l2 l3 l4,
     layer1 r = Sequential l1 /\ layer2 r = Sequential l2 /\
     layer3 r = Sequential l3 /\ layer4 r = Sequential l4 /\
     Forall (built_block nl att_mod) (l1 ++ l2 ++ l3 ++ l4)) /\
  avgpool r = AdaptiveAvgPool2d (1, 1) /\
  fc r = Linear (512 * expansion block) num_classes /\
  downsample_8x8 r = Upsample (4, 4) "bilinear".
Proof.
  intros H nl. unfold ResNet_init in H. fold nl in H.
  destruct (negb _); [discriminate |].
  bind_inv H. bind_inv H. destruct x0 as [l1 s1].
  bind_inv H. bind_inv H. bind_inv H. destruct x2 as [l2 s2].
  bind_inv H. bind_inv H. bind_inv H. destruct x4 as [l3 s3].
  bind_inv H. bind_inv H. bind_inv H. destruct x6 as [l4 s4].
  injection H as <-. simpl.
  apply make_layer_inv in Hx0 as (E1 & ls1 & -> & F1).
  apply make_layer_inv in Hx3 as (E2 & ls2 & -> & F2).
  apply make_layer_inv in Hx6 as (E3 & ls3 & -> & F3).
  apply make_layer_inv in Hx9 as (E4 & ls4 & -> & F4).
  simpl in E1, F1. rewrite E1 in F2, E2. rewrite E2 in F3, E3.
  rewrite E3 in F4.
  split; [destruct (is_Depth in_mod); eexists; split; reflexivity |].
  repeat (split; [reflexivity |]).
  split; [| repeat split; reflexivity].
  exists ls1, ls2, ls3, ls4. repeat (split; [reflexivity |]).
  repeat (apply Forall_app; split); assumption.
Qed.

(** C2.  [conv3x3] returns a [CD_Conv2d] with a 3x3 kernel; every
    [BasicBlock] takes its [conv1] and its [conv2] from [conv3x3] (the second
    possibly followed by the attention layer); the stem convolution of every
    [ResNet] is a [CD_Conv2d]; and with the default norm layer no module of
    the backbone is a plain convolution with a 3x3 kernel. *)
Theorem CD_Conv2d_in_every_3x3 :
  (forall i o s g d,
     exists kw, conv3x3 i o s g d = CD_Conv2d kw /\ kernel_size kw = 3) /\
  (forall inplanes planes stride ds g bw d nl att blk,
     BasicBlock_init inplanes planes stride ds g bw d nl att = inr blk ->
     exists bn1 relu conv2 bn2,
       blk = BasicBlock (conv3x3 inplanes planes stride 1 1) bn1 relu conv2
                        bn2 ds stride /\
       (conv2 = conv3x3 planes planes 1 1 1 \/
        conv2 = Sequential [conv3x3 planes planes 1 1 1; Sim_AM planes])) /\
  (forall block layers nc z g w rswd nl in_mod att r,
     ResNet_init block layers nc z g w rswd nl in_mod att = inr r ->
     (exists kw, conv1 r = CD_Conv2d kw) /\
     (nl = None ->
      forall m, In m (ResNet_modules r) -> is_plain_3x3 m = false)).
Proof.
  split; [| split].
  - intros i o s g d. eexists; split; reflexivity.
  - intros inplanes planes stride ds g bw d nl att blk H.
    apply BasicBlock_init_inr in H as (_ & _ & _ & ->).
    do 4 eexists. split; [reflexivity |].
    unfold conv2_of. destruct (is_SimAM att); [now right | now left].
  - intros block layers nc z g w rswd nl in_mod att r H.
    apply ResNet_init_inv in H.
    destruct H as ((kw & Hc1 & Hk) & Hbn & Hrelu & Hmp &
                   (l1 & l2 & l3 & l4 & E1 & E2 & E3 & E4 & HF) &
                   Hap & Hfc & Hup).
    split; [eauto |].
    intros -> m Hm. simpl in Hbn, HF.
    apply Forall_app in HF as [F1 HF]. apply Forall_app in HF as [F2 HF].
    apply Forall_app in HF as [F3 F4].
    unfold ResNet_modules, ResNet_children in Hm.
    apply in_flat_map in Hm as (c & Hc & Hm).
    simpl in Hc.
    rewrite Hc1, Hbn, Hrelu, Hmp, E1, E2, E3, E4, Hap, Hfc, Hup in Hc.
    destruct Hc as [<- | [<- | [<- | [<- | Hc]]]];
      try (simpl in Hm; destruct Hm as [<- | []]; reflexivity).
    destruct Hc as [<- | [<- | [<- | [<- | Hc]]]];
      try (eapply layer_no_plain_3x3; [| exact Hm]; eassumption).
    destruct Hc as [<- | [<- | [<- | []]]];
      simpl in Hm; destruct Hm as [<- | []]; reflexivity.
Qed.

Lemma CD_Conv2d_in_every_3x3_witness :
  (exists blk, BasicBlock_init 64 128 2 None 1 64 1 None None = inr blk /\
     exists bn1 relu conv2 bn2,
       blk = BasicBlock (conv3x3 64 128 2 1 1) bn1 relu conv2 bn2 None 2 /\
       (conv2 = conv3x3 128 128 1 1 1 \/
        conv2 = Sequential [conv3x3 128 128 1 1 1; Sim_AM 128])) /\
  (exists r, resnet18 (Some "Depth"%string) (Some "SimAM"%string) = inr r /\
     (exists kw, conv1 r = CD_Conv2d kw) /\
     (forall m, In m (ResNet_modules r) -> is_plain_3x3 m = false)).
Proof.
  destruct CD_Conv2d_in_every_3x3 as (_ & H2 & H3).
  split.
  - eexists. split; [reflexivity |].
    apply (H2 64 128 2 None 1 64 1 None None). reflexivity.
  - eexists. split; [vm_compute; reflexivity |].
    destruct (H3 BasicBlock_cls [2; 2; 2; 2] 1000 false 1 64 None None
                 (Some "Depth"%string) (Some "SimAM"%string) _ eq_refl)
      as [Hstem Hall].
    split; [exact Hstem | exact (Hall eq_refl)].
Defined.

(** C7.  [RGB_net] and [Depth_net] each build [resnet18] with
    [att_mod='SimAM'], and each of the eight residual blocks of either
    backbone has the attention layer behind its second convolution; in
    general a [BasicBlock] built with [att_mod='SimAM'] has
    [Sequential(conv2, Sim_AM(planes))] as its [conv2]. *)
Theorem Sim_AM_in_both_streams :
  (exists r,
     resnet18 None (Some "SimAM"%string) = inr r /\
     RGB_net_init = inr (MkStream r (AdaptiveAvgPool2d (1, 1))
                                  (Sequential [Linear 960 1; Sigmoid])) /\
     length (ResNet_blocks r) = 8%nat /\
     forallb wraps_Sim_AM (ResNet_blocks r) = true) /\
  (exists r,
     resnet18 (Some "Depth"%string) (Some "SimAM"%string) = inr r /\
     Depth_net_init = inr (MkStream r (AdaptiveAvgPool2d (1, 1))
                                    (Sequential [Linear 960 1; Sigmoid])) /\
     length (ResNet_blocks r) = 8%nat /\
     forallb wraps_Sim_AM (ResNet_blocks r) = true) /\
  (forall inplanes planes stride ds g bw d nl blk,
     BasicBlock_init inplanes planes stride ds g bw d nl
                     (Some "SimAM"%string) = inr blk ->
     exists conv1 bn1 relu bn2,
       blk = BasicBlock conv1 bn1 relu
               (Sequential [conv3x3 planes planes 1 1 1; Sim_AM planes])
               bn2 ds stride) /\
  (forall block layers nc z g w rswd in_mod r m,
     ResNet_init block layers nc z g w rswd None in_mod
                 (Some "SimAM"%string) = inr r ->
     In m (ResNet_modules r) -> is_BasicBlock m = true ->
     wraps_Sim_AM m = true).
Proof.
  split; [| split; [| split]].
  - eexists. split; [vm_compute; reflexivity |].
    split; [vm_compute; reflexivity |].
    split; vm_compute; reflexivity.
  - eexists. split; [vm_compute; reflexivity |].
    split; [vm_compute; reflexivity |].
    split; vm_compute; reflexivity.
  - intros inplanes planes stride ds g bw d nl blk H.
    apply BasicBlock_init_inr in H as (_ & _ & _ & ->).
    do 4 eexists. reflexivity.
  - intros block layers nc z g w rswd in_mod r m H Hm Hb.
    apply ResNet_init_inv in H.
    destruct H as ((kw & Hc1 & Hk) & Hbn & Hrelu & Hmp &
                   (l1 & l2 & l3 & l4 & E1 & E2 & E3 & E4 & HF) &
                   Hap & Hfc & Hup).
    simpl in Hbn, HF.
    apply Forall_app in HF as [F1 HF]. apply Forall_app in HF as [F2 HF].
    apply Forall_app in HF as [F3 F4].
    unfold ResNet_modules, ResNet_children in Hm.
    apply in_flat_map in Hm as (c & Hc & Hm).
    simpl in Hc.
    rewrite Hc1, Hbn, Hrelu, Hmp, E1, E2, E3, E4, Hap, Hfc, Hup in Hc.
    destruct Hc as [<- | [<- | [<- | [<- | Hc]]]];
      try (simpl in Hm; destruct Hm as [<- | []]; discriminate).
    destruct Hc as [<- | [<- | [<- | [<- | Hc]]]];
      try (eapply layer_blocks_wrap; [| exact Hm | exact Hb]; eassumption).
    destruct Hc as [<- | [<- | [<- | []]]];
      simpl in Hm; destruct Hm as [<- | []]; discriminate.
Qed.

Lemma Sim_AM_in_both_streams_witness :
  (exists blk,
     BasicBlock_init 64 64 1 None 1 64 1 None (Some "SimAM"%string) = inr blk /\
     exists conv1 bn1 relu bn2,
       blk = BasicBlock conv1 bn1 relu
               (Sequential [conv3x3 64 64 1 1 1; Sim_AM 64]) bn2 None 1) /\
  (exists r, resnet18 None (Some "SimAM"%string) = inr r /\
     forall m, In m (ResNet_modules r) -> is_BasicBlock m = true ->
               wraps_Sim_AM m = true).
Proof.
  destruct Sim_AM_in_both_streams as (_ & _ & H3 & H4).
  split.
  - eexists. split; [reflexivity |].
    apply (H3 64 64 1 None 1 64 1 None). reflexivity.
  - eexists. split; [vm_compute; reflexivity |].
    intros m. apply (H4 BasicBlock_cls [2; 2; 2; 2] 1000 false 1 64 None None).
    reflexivity.
Defined.

End ArchProofs.

(** ** The losses *)

Module LossProofs.

Import Tensor Loss.
Local Open Scope R_scope.

Lemma eps_literal : 0.000000001 = 1e-9.
Proof. lra. Qed.

Lemma in_unit_interval_true x : 0 <= x <= 1 -> in_unit_interval x = true.
Proof.
  intros [H0 H1]. unfold in_unit_interval.
  destruct (Rle_dec 0 x); [| contradiction].
  destruct (Rle_dec x 1); [reflexivity | contradiction].
Qed.

Lemma binary_cross_entropy_ok input target :
  shape input = shape target ->
  Forall (fun x => 0 <= x <= 1) (data input) ->
  binary_cross_entropy input target = ok (tzip bce input target).
Proof.
  intros Hs Hr. unfold binary_cross_entropy, shape_eqb.
  rewrite bool_decide_true by (symmetry; exact Hs). simpl.
  replace (forallb in_unit_interval (data input)) with true; [reflexivity |].
  symmetry. apply forallb_forall. intros x Hx.
  rewrite Forall_forall in Hr. apply in_unit_interval_true, Hr.
  apply list_elem_of_In. exact Hx.
Qed.

(** The two weighted losses, position by position, for the default
    attributes. *)
Lemma default_focal_data (a b t : list R) :
  let bce_a := zip_with bce a t in
  let bce_b := zip_with bce b t in
  let pt_a := map exp (map Ropp bce_a) in
  let pt_b := map exp (map Ropp bce_b) in
  let den := map (fun v => v + 0.000000001) (zip_with Rplus pt_a pt_b) in
  let num := zip_with Rmult (map (fun v => 2 * v) pt_a) pt_b in
  zip_with Rmult
    (map (fun v => 1 * v)
       (map (fun v => v ^ 2)
          (map (fun v => 1 - v)
             (zip_with Rdiv
                (zip_with Rmult (map (fun v => v + 0.000000001) pt_b) num)
                den))))
    bce_a = map3 spec_focal_a a b t
  /\
  zip_with Rmult
    (map (fun v => 1 * v)
       (map (fun v => v ^ 2)
          (map (fun v => 1 - v)
             (zip_with Rdiv
                (zip_with Rmult (map (fun v => v + 0.000000001) pt_a) num)
                den))))
    bce_b = map3 spec_focal_b a b t.
Proof.
  revert b t. induction a as [| x a IH]; intros b t;
    [destruct b, t; split; reflexivity |].
  destruct b as [| y b]; [destruct t; split; reflexivity |].
  destruct t as [| z t]; [split; reflexivity |].
  destruct (IH b t) as [IHa IHb]. cbn zeta in IHa, IHb.
  cbn [zip_with map map3]. split.
  - f_equal; [| exact IHa].
    unfold spec_focal_a, spec_w_a, spec_p. rewrite eps_literal. ring.
  - f_equal; [| exact IHb].
    unfold spec_focal_b, spec_w_b, spec_p. rewrite eps_literal. ring.
Qed.

(** The formula on the whole interval [0, 1] of inputs and for any target. *)
Lemma CMFLoss_forward_default_unit (a b t : tensor) :
  shape a = shape t -> shape b = shape t ->
  Forall (fun x => 0 <= x <= 1) (data a) ->
  Forall (fun x => 0 <= x <= 1) (data b) ->
  CMFLoss_forward CMFLoss_default a b t
  = ok (spec_cmfl (data a) (data b) (data t)).
Proof.
  intros Ha Hb Ra Rb. unfold CMFLoss_forward.
  rewrite (binary_cross_entropy_ok a t Ha Ra).
  rewrite (binary_cross_entropy_ok b t Hb Rb).
  cbn [rbind ok sg binary alpha gamma multiplier CMFLoss_default].
  unfold spec_cmfl, tmean, mean_R.
  destruct (default_focal_data (data a) (data b) (data t)) as [Fa Fb].
  cbn zeta in Fa, Fb.
  unfold tmul, tdiv, tadd, tadds, smul, ssub, tpow, texp, tneg, tzip, tmap.
  cbn [data shape]. rewrite Fa, Fb. reflexivity.
Qed.

(** C1.  With the default attributes, on probability tensors [a], [b] with
    entries in (0,1] and a target [t] with entries in {0,1} (all of one
    shape), [CMFLoss.forward(a,b,t)] returns
    [0.5*mean((1-w_a)^2 * BCE(a,t)) + 0.5*mean((1-w_b)^2 * BCE(b,t))]. *)
Theorem CMFLoss_forward_default_formula (a b t : tensor) :
  shape a = shape t -> shape b = shape t ->
  Forall probability (data a) ->
  Forall probability (data b) ->
  Forall binary_target (data t) ->
  CMFLoss_forward CMFLoss_default a b t
  = ok (spec_cmfl (data a) (data b) (data t)).
Proof.
  intros Ha Hb Ra Rb _.
  apply CMFLoss_forward_default_unit; try assumption.
  - eapply Forall_impl; [exact Ra |]. unfold probability. intros x; simpl; lra.
  - eapply Forall_impl; [exact Rb |]. unfold probability. intros x; simpl; lra.
Qed.

Lemma CMFLoss_forward_default_formula_witness :
  let a := MkTensor [2; 1]%nat [0.5; 1] in
  let b := MkTensor [2; 1]%nat [0.25; 0.75] in
  let t := MkTensor [2; 1]%nat [1; 0] in
  CMFLoss_forward CMFLoss_default a b t
  = ok (spec_cmfl [0.5; 1] [0.25; 0.75] [1; 0]).
Proof.
  intros a b t.
  apply (CMFLoss_forward_default_formula a b t).
  - reflexivity.
  - reflexivity.
  - repeat constructor; simpl; lra.
  - repeat constructor; simpl; lra.
  - constructor; [right; reflexivity |].
    constructor; [left; reflexivity | constructor].
Defined.

(** [forward] with [sg=False] is the two cross-entropies followed by
    [f_losses] and the two means. *)
Lemma CMFLoss_forward_unfold al g bin mult a b t :
  let self := MkCMFLoss al g bin mult false in
  CMFLoss_forward self a b t =
  (let* x := binary_cross_entropy a t in
   let* y := binary_cross_entropy b t in
   ok (0.5 * tmean (fst (f_losses self x y t))
       + 0.5 * tmean (snd (f_losses self x y t)))).
Proof.
  intros self. unfold CMFLoss_forward, f_losses.
  destruct (binary_cross_entropy a t) as [e | x]; [reflexivity |].
  destruct (binary_cross_entropy b t) as [e | y]; [reflexivity |].
  cbn [rbind sg binary self]. destruct bin; reflexivity.
Qed.

Lemma weight_swap m pa pb eps :
  (pa + eps) * (m * pb * pa) / (pb + pa + eps)
  = (pa + eps) * (m * pa * pb) / (pa + pb + eps).
Proof.
  replace (pb + pa + eps) with (pa + pb + eps) by ring.
  unfold Rdiv. ring.
Qed.

(** Exchanging the two cross-entropies exchanges the two weighted losses. *)
Lemma f_losses_swap self (x y t : tensor) :
  data (fst (f_losses self y x t)) = data (snd (f_losses self x y t)) /\
  data (snd (f_losses self y x t)) = data (fst (f_losses self x y t)).
Proof.
  unfold f_losses.
  unfold tmul, tdiv, tadd, tadds, smul, ssub, tpow, texp, tneg, tzip, tmap.
  destruct x as [sx lx], y as [sy ly], t as [st lt].
  destruct (binary self); cbn [fst snd data shape].
  - clear sx sy st. revert ly lt.
    induction lx as [| u lx IH]; intros ly lt.
    + destruct ly, lt; split; reflexivity.
    + destruct ly as [| v ly]; [destruct lt; split; reflexivity |].
      destruct lt as [| w lt]; [split; reflexivity |].
      destruct (IH ly lt) as [IH1 IH2].
      cbn [zip_with map]. split.
      * f_equal; [| exact IH1]. rewrite weight_swap. reflexivity.
      * f_equal; [| exact IH2]. rewrite <- weight_swap. reflexivity.
  - clear sx sy st lt. revert ly.
    induction lx as [| u lx IH]; intros ly.
    + destruct ly; split; reflexivity.
    + destruct ly as [| v ly]; [split; reflexivity |].
      destruct (IH ly) as [IH1 IH2].
      cbn [zip_with map]. split.
      * f_equal; [| exact IH1]. rewrite weight_swap. reflexivity.
      * f_equal; [| exact IH2]. rewrite <- weight_swap. reflexivity.
Qed.

(** The value is the same for both orders of the two inputs. *)
Lemma CMFLoss_value_swap self (x y t : tensor) :
  0.5 * tmean (fst (f_losses self x y t))
  + 0.5 * tmean (snd (f_losses self x y t))
  = 0.5 * tmean (fst (f_losses self y x t))
    + 0.5 * tmean (snd (f_losses self y x t)).
Proof.
  destruct (f_losses_swap self x y t) as [E1 E2].
  unfold tmean. rewrite E1, E2. ring.
Qed.

(** C8.  With [sg=False], [CMFLoss.forward] returns the same value for
    [(a, b, t)] and for [(b, a, t)]; hence the term
    [criterion_cmfl(p,q,targets) + criterion_cmfl(q,p,targets)] of
    [Total_loss.forward] is twice [criterion_cmfl(p,q,targets)]. *)
Theorem CMFLoss_forward_symmetric (al : R) (g : nat) (bin : bool) (mult : R) :
  let self := MkCMFLoss al g bin mult false in
  (forall a b t v,
     CMFLoss_forward self a b t = ok v <-> CMFLoss_forward self b a t = ok v)
  /\
  (forall lam p q targets,
     loss_pq_term (MkTotal_loss lam self) p q targets
     = (let* l := CMFLoss_forward self p q targets in ok (2 * l))).
Proof.
  intros self.
  assert (Hsym : forall a b t v,
             CMFLoss_forward self a b t = ok v ->
             CMFLoss_forward self b a t = ok v).
  { intros a b t v. unfold self.
    rewrite !CMFLoss_forward_unfold.
    destruct (binary_cross_entropy a t) as [e | x];
      destruct (binary_cross_entropy b t) as [e' | y];
      cbn [rbind]; try discriminate.
    intros [= <-]. unfold ok. f_equal. apply CMFLoss_value_swap. }
  split.
  - intros a b t v. split; apply Hsym.
  - intros lam p q targets. unfold loss_pq_term.
    cbn [criterion_cmfl].
    destruct (CMFLoss_forward self p q targets) as [e | v] eqn:E;
      [reflexivity |].
    cbn [rbind]. rewrite (Hsym p q targets v E).
    unfold ok, rbind. f_equal. ring.
Qed.

Lemma CMFLoss_forward_symmetric_witness :
  let a := MkTensor [2; 1]%nat [0.5; 1] in
  let b := MkTensor [2; 1]%nat [0.25; 0.75] in
  let t := MkTensor [2; 1]%nat [1; 0] in
  CMFLoss_forward CMFLoss_default b a t
  = ok (spec_cmfl [0.5; 1] [0.25; 0.75] [1; 0])
  /\ loss_pq_term Total_loss_default a b t
     = ok (2 * spec_cmfl [0.5; 1] [0.25; 0.75] [1; 0]).
Proof.
  intros a b t.
  destruct (CMFLoss_forward_symmetric 1 2 false 2) as [Hsym Hpq].
  assert (E : CMFLoss_forward CMFLoss_default a b t
              = ok (spec_cmfl [0.5; 1] [0.25; 0.75] [1; 0])).
  { apply (CMFLoss_forward_default_unit a b t);
      [reflexivity | reflexivity | |]; repeat constructor; simpl; lra. }
  split.
  - apply (proj1 (Hsym a b t _)). exact E.
  - transitivity (let* l := CMFLoss_forward CMFLoss_default a b t in
                  ok (2 * l)); [exact (Hpq 0.7 a b t) |].
    rewrite E. reflexivity.
Defined.

(** C4.  With the default [lamb=0.7], [Total_loss.forward(p, q, r, targets)]
    is [(1-0.7)*CrossEntropyLoss(r, targets)
        + 0.7*(CMFLoss(p, q, targets) + CMFLoss(q, p, targets))]: a convex
    combination, the weights being non-negative and summing to one. *)
Theorem Total_loss_forward_default
    (CrossEntropyLoss : tensor -> tensor -> result R)
    (p q r targets : tensor) :
  Total_loss_forward CrossEntropyLoss Total_loss_default p q r targets
  = (let* loss_r := CrossEntropyLoss r targets in
     let* l_pq := CMFLoss_forward CMFLoss_default p q targets in
     let* l_qp := CMFLoss_forward CMFLoss_default q p targets in
     ok ((1 - 0.7) * loss_r + 0.7 * (l_pq + l_qp)))
  /\ 0 <= 1 - lamb Total_loss_default
  /\ 0 <= lamb Total_loss_default
  /\ (1 - lamb Total_loss_default) + lamb Total_loss_default = 1.
Proof.
  split.
  - unfold Total_loss_forward, loss_pq_term.
    cbn [criterion_cmfl lamb Total_loss_default].
    destruct (CrossEntropyLoss r targets) as [e | loss_r]; [reflexivity |].
    destruct (CMFLoss_forward CMFLoss_default p q targets) as [e | l_pq];
      [reflexivity |].
    destruct (CMFLoss_forward CMFLoss_default q p targets) as [e | l_qp];
      reflexivity.
  - cbn [lamb Total_loss_default]. lra.
Qed.

End LossProofs.

(** ** The forward pass of the dual-stream model *)

Module ModelProofs.

Import Tensor Model.
Local Open Scope nat_scope.

(** Taking the first [n] elements of every block reads the positions
    [b * size + j], [j < n], only. *)
Lemma first_of_chunks_ext (n : nat) : forall (B s s' : nat) (l l' : list R),
  n <= s -> n <= s' ->
  (forall b j, b < B -> j < n -> l !! (b * s + j) = l' !! (b * s' + j)) ->
  flat_map (take n) (chunks B s l) = flat_map (take n) (chunks B s' l').
Proof.
  induction B as [| B IH]; intros s s' l l' Hs Hs' Hl; [reflexivity |].
  cbn [chunks flat_map]. f_equal.
  - rewrite !take_take, !Nat.min_l by assumption.
    apply list_eq. intros i. rewrite !lookup_take.
    destruct (decide (i < n)) as [Hi | Hi]; [| reflexivity].
    apply (Hl 0 i); [lia | exact Hi].
  - apply IH; [assumption | assumption |].
    intros b j Hb Hj. rewrite !lookup_drop.
    replace (s + (b * s + j)) with (S b * s + j) by lia.
    replace (s' + (b * s' + j)) with (S b * s' + j) by lia.
    apply Hl; [lia | exact Hj].
Qed.

(** The slice [x[:,0:1,:,:]] is the same for inputs that agree on channel 0. *)
Lemma getitem_channel0_agree x x' :
  agree_on_channel0 x x' -> getitem_channel0 x = getitem_channel0 x'.
Proof.
  intros (B & C & C' & H & W & Hx & Hx' & HC & HC' & Hag).
  unfold getitem_channel0. rewrite Hx, Hx'.
  rewrite !Nat.min_r by assumption.
  unfold ok. do 2 f_equal.
  apply first_of_chunks_ext.
  - cbn [numel_of foldr]. nia.
  - cbn [numel_of foldr]. nia.
  - intros b j Hb Hj. cbn [numel_of foldr] in Hj |- *.
    assert (HW : 0 < W) by nia.
    assert (Hh : j / W < H).
    { apply Nat.Div0.div_lt_upper_bound. nia. }
    assert (Hw : j mod W < W) by (apply Nat.mod_upper_bound; lia).
    specialize (Hag b (j / W) (j mod W) Hb Hh Hw).
    unfold get4 in Hag. rewrite Hx, Hx' in Hag.
    pose proof (Nat.div_mod_eq j W) as Hj'.
    replace (b * (C * (H * (W * 1))) + j)
      with (((b * C + 0) * H + j / W) * W + j mod W) by nia.
    replace (b * (C' * (H * (W * 1))) + j)
      with (((b * C' + 0) * H + j / W) * W + j mod W) by nia.
    exact Hag.
Qed.

(** C9.  [RGBD_model.forward] reads the depth input through its channel 0
    only: two depth inputs that agree there give the same result, whatever
    the remaining channels hold. *)
Theorem RGBD_forward_depth_channel0_only (self : RGBD_model)
    (x_rgb x_d x_d' : tensor) :
  agree_on_channel0 x_d x_d' ->
  RGBD_forward self x_rgb x_d = RGBD_forward self x_rgb x_d'.
Proof.
  intros Hag. unfold RGBD_forward.
  rewrite (getitem_channel0_agree x_d x_d' Hag). reflexivity.
Qed.

Lemma RGBD_forward_depth_channel0_only_witness :
  let x_rgb := MkTensor [2; 3; 1; 2] (repeat 0%R 12) in
  let x_d := MkTensor [2; 2; 1; 2] [1; 2; 3; 4; 5; 6; 7; 8]%R in
  let x_d' := MkTensor [2; 3; 1; 2] [1; 2; 9; 9; 9; 9; 5; 6; 0; 0; 0; 0]%R in
  RGBD_forward constant_model x_rgb x_d
  = RGBD_forward constant_model x_rgb x_d'.
Proof.
  intros x_rgb x_d x_d'.
  apply (RGBD_forward_depth_channel0_only constant_model x_rgb x_d x_d').
  exists 2, 2, 3, 1, 2.
  split; [reflexivity |]. split; [reflexivity |].
  split; [lia |]. split; [lia |].
  intros b h w Hb Hh Hw.
  destruct b as [| [| b]]; [| | lia];
    (destruct h as [| h]; [| lia]);
    (destruct w as [| [| w]]; [reflexivity | reflexivity | lia]).
Defined.

(** The shape [squeeze] leaves of a pooled batch: the batch dimension goes
    with the two spatial ones when it is one. *)
Lemma squeeze_pooled_shape (B : nat) (d : list R) :
  shape (squeeze (MkTensor [B; 960; 1; 1] d))
  = if B =? 1 then [960] else [B; 960].
Proof.
  unfold squeeze. cbn [shape].
  rewrite !filter_cons, filter_nil.
  destruct (Nat.eqb_spec B 1) as [-> | HB]; repeat case_decide;
    first [reflexivity | lia | contradiction].
Qed.

(** A single stream on a backbone output of shape [B, 960, h, w]. *)
Lemma stream_forward_shapes (self : stream_net) (x y : tensor) (B h w : nat) :
  net self x = ok y -> shape y = [B; 960; h; w] -> h * w <> 0 ->
  exists gap p,
    stream_forward self x = ok (gap, p) /\
    shape gap = (if B =? 1 then [960] else [B; 960]) /\
    shape p = (if B =? 1 then [1] else [B; 1]).
Proof.
  intros Hnet Hy Hhw. unfold stream_forward. rewrite Hnet. cbn [rbind ok].
  unfold AdaptiveAvgPool2d_1. rewrite Hy.
  destruct (Nat.eqb_spec (960 * h * w) 0) as [E | _]; [lia |].
  cbn [rbind ok].
  set (pooled := MkTensor [B; 960; 1; 1] _).
  assert (Hgap : shape (sigmoid (squeeze pooled))
                 = if B =? 1 then [960] else [B; 960]).
  { unfold sigmoid, tmap. cbn [shape]. apply squeeze_pooled_shape. }
  unfold classifier_forward, Linear. rewrite Hgap.
  destruct (B =? 1); cbn [reverse rev_append]; rewrite Nat.eqb_refl;
    cbn [negb rbind ok]; do 2 eexists; (split; [reflexivity |]);
    split; first [exact Hgap | reflexivity].
Qed.

(** The data flow of a run that returns: [p] and [q] are the outputs of the
    two streams, on [x_rgb] and on channel 0 of [x_d]; [gap] is the two
    pooled feature vectors joined along dimension 1; [r] is the joint
    classifier on [gap]. *)
Lemma RGBD_forward_inr self x_rgb x_d gap r p q :
  RGBD_forward self x_rgb x_d = ok (gap, r, p, q) ->
  exists x_d0 gap_rgb gap_d,
    getitem_channel0 x_d = ok x_d0 /\
    stream_forward (rgb_net self) x_rgb = ok (gap_rgb, p) /\
    stream_forward (depth_net self) x_d0 = ok (gap_d, q) /\
    cat_dim1 gap_rgb gap_d = ok gap /\
    classifier_forward 1920 (classifier self) gap = ok r.
Proof.
  unfold RGBD_forward. intros H.
  apply rbind_inr in H as (x_d0 & Hx & H).
  apply rbind_inr in H as ([gap_rgb p'] & Hp & H).
  apply rbind_inr in H as ([gap_d q'] & Hq & H).
  apply rbind_inr in H as (gap' & Hg & H).
  apply rbind_inr in H as (r' & Hr & H).
  injection H as <- <- <- <-.
  exists x_d0, gap_rgb, gap_d. repeat split; assumption.
Qed.

(** On a batch of two or more samples (or an empty one) the forward pass
    returns, with [gap] of shape [B, 1920] and the three scores of shape
    [B, 1]. *)
Lemma RGBD_forward_returns self x_rgb x_d x_d0 y_rgb y_d B h w h' w' :
  B <> 1 ->
  getitem_channel0 x_d = ok x_d0 ->
  net (rgb_net self) x_rgb = ok y_rgb ->
  shape y_rgb = [B; 960; h; w] -> h * w <> 0 ->
  net (depth_net self) x_d0 = ok y_d ->
  shape y_d = [B; 960; h'; w'] -> h' * w' <> 0 ->
  exists gap r p q,
    RGBD_forward self x_rgb x_d = ok (gap, r, p, q) /\
    shape gap = [B; 1920] /\ shape r = [B; 1] /\
    shape p = [B; 1] /\ shape q = [B; 1].
Proof.
  intros HB Hx Hr Hsr Hhw Hd Hsd Hhw'.
  destruct (stream_forward_shapes _ _ _ _ _ _ Hr Hsr Hhw)
    as (gap_rgb & p & Ep & Sg & Sp).
  destruct (stream_forward_shapes _ _ _ _ _ _ Hd Hsd Hhw')
    as (gap_d & q & Eq & Sg' & Sq).
  apply Nat.eqb_neq in HB. rewrite HB in Sg, Sp, Sg', Sq.
  unfold RGBD_forward. rewrite Hx. cbn [rbind ok]. rewrite Ep, Eq.
  cbn [rbind ok]. unfold cat_dim1. rewrite Sg, Sg'.
  unfold shape_eqb. rewrite bool_decide_true by reflexivity.
  cbn [negb rbind ok].
  unfold classifier_forward, Linear. cbn [shape reverse rev_append].
  change (960 + 960) with 1920. rewrite Nat.eqb_refl. cbn [negb rbind ok].
  do 4 eexists. split; [reflexivity |].
  repeat split; first [exact Sp | exact Sq | reflexivity].
Qed.

(** C3, on a batch of one sample.  [squeeze()] drops the batch dimension
    with the spatial ones, both pooled feature vectors have the single
    dimension [960], and [torch.cat(..., dim=1)] raises: no tuple is
    returned. *)
Theorem RGBD_forward_batch_of_one (self : RGBD_model)
    (x_rgb x_d x_d0 y_rgb y_d : tensor) (h w h' w' : nat) :
  getitem_channel0 x_d = ok x_d0 ->
  net (rgb_net self) x_rgb = ok y_rgb ->
  shape y_rgb = [1; 960; h; w] -> h * w <> 0 ->
  net (depth_net self) x_d0 = ok y_d ->
  shape y_d = [1; 960; h'; w'] -> h' * w' <> 0 ->
  RGBD_forward self x_rgb x_d
  = raise (IndexError
      "Dimension out of range (expected to be in range of [-1, 0], but got 1)").
Proof.
  intros Hx Hr Hsr Hhw Hd Hsd Hhw'.
  destruct (stream_forward_shapes _ _ _ _ _ _ Hr Hsr Hhw)
    as (gap_rgb & p & Ep & Sg & _).
  destruct (stream_forward_shapes _ _ _ _ _ _ Hd Hsd Hhw')
    as (gap_d & q & Eq & _ & _).
  cbn [Nat.eqb] in Sg.
  unfold RGBD_forward. rewrite Hx. cbn [rbind ok]. rewrite Ep, Eq.
  cbn [rbind ok]. unfold cat_dim1. rewrite Sg. reflexivity.
Qed.

Lemma RGBD_forward_batch_of_one_witness :
  let x_rgb := MkTensor [1; 3; 128; 128] (repeat 0%R (3 * (128 * 128))) in
  let x_d := MkTensor [1; 3; 128; 128] (repeat 0%R (3 * (128 * 128))) in
  RGBD_forward constant_model x_rgb x_d
  = raise (IndexError
      "Dimension out of range (expected to be in range of [-1, 0], but got 1)").
Proof.
  intros x_rgb x_d.
  eapply (RGBD_forward_batch_of_one constant_model x_rgb x_d _ _ _ 4 4 4 4).
  - reflexivity.
  - reflexivity.
  - reflexivity.
  - discriminate.
  - reflexivity.
  - reflexivity.
  - discriminate.
Defined.

End ModelProofs.

(** ** The evaluation script *)

Module EvalProofs.

Import Tensor Eval.

(** The rule of the prediction: 1 above one half, 0 at one half and below. *)
Lemma predict_rule (score : tensor) (i : nat) (r : R) :
  data score !! i = Some r ->
  data (predict score) !! i
  = Some (if Rlt_dec 0.5 r then 1%R else 0%R)
  /\ (data (predict score) !! i = Some 1%R <-> (0.5 < r)%R).
Proof.
  intros Hr. unfold predict, tmap. cbn [data].
  rewrite list_lookup_fmap, Hr. cbn. split; [reflexivity |].
  destruct (Rlt_dec 0.5 r) as [H | H]; split; intros H'.
  - exact H.
  - reflexivity.
  - injection H' as H'. lra.
  - contradiction.
Qed.

Lemma predict_at_half :
  predict (MkTensor [3; 1]%nat [0.5; 0.75; 0.25]%R)
  = MkTensor [3; 1]%nat [0; 1; 0]%R.
Proof.
  unfold predict, tmap. cbn [data shape map]. f_equal.
  repeat match goal with
         | |- context [Rlt_dec ?a ?b] => destruct (Rlt_dec a b); try lra
         end.
  reflexivity.
Qed.

(** The name [Accuracy] is bound neither by the script nor by [builtins]. *)
Lemma Accuracy_unbound (env : environment) :
  resolve (module_globals env) "Accuracy" = raise (NameError "Accuracy").
Proof.
  unfold resolve.
  replace (module_globals env !! "Accuracy"%string) with (@None pyval)
    by (vm_compute; reflexivity).
  replace (bool_decide ("Accuracy"%string ∈ builtins)) with false
    by (vm_compute; reflexivity).
  reflexivity.
Qed.

(** With a metric class bound to the name, the loop would pass one accuracy
    per batch to [update] and print the [avg] of those values last. *)
Lemma eval_loop_updates model acc : forall batches i stdout updates out us,
  eval_loop model acc i batches stdout updates = (out, ok us) ->
  length us = (length updates + length batches)%nat.
Proof.
  induction batches as [| b rest IH]; intros i stdout updates out us H;
    cbn [eval_loop] in H.
  - injection H as _ <-. cbn. lia.
  - destruct (eval_batch model acc i b) as [e | [lines v]]; [discriminate |].
    apply IH in H. rewrite H, length_app. cbn. lia.
Qed.

(** C5.  The run of the script ends at [acc = Accuracy()]: the name is not
    defined, a [NameError] is raised, no batch is evaluated and nothing is
    printed, whatever the saved model and the test set are. *)
Theorem main_raises_NameError (env : environment) :
  main env = ([], Some (NameError "Accuracy")).
Proof.
  unfold main. rewrite Accuracy_unbound. reflexivity.
Qed.

End EvalProofs.

(** ** More on the construction of the backbone *)

Module ArchExtra.

Import Arch ArchProofs.

Lemma BasicBlock_init_ok inplanes planes stride ds dilation nl att_mod :
  dilation <= 1 ->
  BasicBlock_init inplanes planes stride ds 1 64 dilation nl att_mod
  = inr (BasicBlock (conv3x3 inplanes planes stride 1 1)
                    (norm_layer_or_default nl planes) (ReLU true)
                    (conv2_of att_mod planes)
                    (norm_layer_or_default nl planes) ds stride).
Proof.
  intros Hd. unfold BasicBlock_init, conv2_of. cbn [Z.eqb Pos.eqb negb orb].
  destruct (Z.gtb_spec dilation 1); [lia | reflexivity].
Qed.

(** The loop of [_make_layer] appends [n] copies of one block, and needs
    that block to be constructible as soon as [n > 0]. *)
Lemma append_blocks_inr self block planes att_mod n : forall layers ls,
  append_blocks self block planes att_mod n layers = inr ls ->
  (n = 0%nat /\ ls = layers) \/
  exists b,
    block_call block (inplanes self) planes 1 None (groups_ self)
               (base_width self) (dilation_ self) (Some (_norm_layer self))
               att_mod = inr b
    /\ ls = layers ++ repeat b n.
Proof.
  induction n as [| n IH]; intros layers ls H; cbn [append_blocks] in H.
  - left. injection H as <-. split; reflexivity.
  - right. apply rbind_inr in H as (b & Hb & H). exists b. split; [exact Hb |].
    apply IH in H as [[-> ->] | (b' & Hb' & ->)].
    + reflexivity.
    + rewrite Hb in Hb'. injection Hb' as <-.
      rewrite <- app_assoc. reflexivity.
Qed.

Lemma append_blocks_ok self block planes att_mod b n : forall layers,
  block_call block (inplanes self) planes 1 None (groups_ self)
             (base_width self) (dilation_ self) (Some (_norm_layer self))
             att_mod = inr b ->
  append_blocks self block planes att_mod n layers
  = inr (layers ++ repeat b n).
Proof.
  induction n as [| n IH]; intros layers Hb; cbn [append_blocks repeat].
  - rewrite app_nil_r. reflexivity.
  - rewrite Hb. cbn [rbind]. rewrite IH by exact Hb.
    rewrite <- app_assoc. reflexivity.
Qed.

(** What [_make_layer] returns for [BasicBlock], and when. *)
Lemma make_layer_BasicBlock_inr self planes blocks stride dilate att_mod l self' :
  _make_layer self BasicBlock_cls planes blocks stride dilate att_mod
  = inr (l, self') ->
  groups_ self = 1 /\ base_width self = 64 /\ dilation_ self <= 1 /\
  (Z.to_nat (blocks - 1) <> 0%nat ->
   dilation_ (next_attrs self planes stride dilate) <= 1) /\
  l = Sequential (first_block self planes stride dilate att_mod
                  :: repeat (next_block self planes att_mod)
                            (Z.to_nat (blocks - 1))) /\
  self' = next_attrs self planes stride dilate.
Proof.
  unfold _make_layer, first_block, next_block, next_attrs.
  cbn [expansion]. rewrite !Z.mul_1_r. intros H.
  destruct dilate; cbn [fst snd] in H |- *.
  - apply rbind_inr in H as (b & Hb & H).
    apply rbind_inr in H as (ls & Hls & H). injection H as <- <-.
    cbn [block_call] in Hb.
    apply BasicBlock_init_inr in Hb as (Hg & Hw & Hd & ->).
    cbn [norm_layer_or_default].
    repeat (split; [assumption |]).
    apply append_blocks_inr in Hls as [[Hn ->] | (b' & Hb' & ->)].
    + rewrite Hn. split; [intros []; reflexivity |].
      split; reflexivity.
    + cbn [block_call inplanes groups_ base_width dilation_ _norm_layer]
        in Hb'.
      apply BasicBlock_init_inr in Hb' as (_ & _ & Hd' & ->).
      cbn [norm_layer_or_default].
      split; [intros _; exact Hd' |]. split; reflexivity.
  - apply rbind_inr in H as (b & Hb & H).
    apply rbind_inr in H as (ls & Hls & H). injection H as <- <-.
    cbn [block_call] in Hb.
    apply BasicBlock_init_inr in Hb as (Hg & Hw & Hd & ->).
    cbn [norm_layer_or_default].
    repeat (split; [assumption |]).
    apply append_blocks_inr in Hls as [[Hn ->] | (b' & Hb' & ->)].
    + rewrite Hn. split; [intros []; reflexivity |].
      split; reflexivity.
    + cbn [block_call inplanes groups_ base_width dilation_ _norm_layer]
        in Hb'.
      apply BasicBlock_init_inr in Hb' as (_ & _ & Hd' & ->).
      cbn [norm_layer_or_default].
      split; [intros _; exact Hd' |]. split; reflexivity.
Qed.

Lemma make_layer_BasicBlock_ok self planes blocks stride dilate att_mod :
  groups_ self = 1 -> base_width self = 64 -> dilation_ self <= 1 ->
  (Z.to_nat (blocks - 1) <> 0%nat ->
   dilation_ (next_attrs self planes stride dilate) <= 1) ->
  _make_layer self BasicBlock_cls planes blocks stride dilate att_mod
  = inr (Sequential (first_block self planes stride dilate att_mod
                     :: repeat (next_block self planes att_mod)
                               (Z.to_nat (blocks - 1))),
         next_attrs self planes stride dilate).
Proof.
  intros Hg Hw Hd Hn.
  unfold _make_layer, first_block, next_block, next_attrs in *.
  cbn [expansion]. rewrite !Z.mul_1_r.
  destruct dilate;
    cbn [block_call inplanes groups_ base_width dilation_ _norm_layer] in *;
    rewrite Hg, Hw;
    rewrite (BasicBlock_init_ok _ _ _ _ _ _ _ Hd); cbn [rbind];
    cbn [norm_layer_or_default].
  - destruct (Z.to_nat (blocks - 1)) as [| n] eqn:En; [reflexivity |].
    erewrite append_blocks_ok; [reflexivity |].
    cbn [block_call inplanes groups_ base_width dilation_ _norm_layer].
    apply BasicBlock_init_ok. apply Hn. discriminate.
  - destruct (Z.to_nat (blocks - 1)) as [| n] eqn:En; [reflexivity |].
    erewrite append_blocks_ok; [reflexivity |].
    cbn [block_call inplanes groups_ base_width dilation_ _norm_layer].
    apply BasicBlock_init_ok. apply Hn. discriminate.
Qed.

(** The layers of a backbone built from [BasicBlock], exactly. *)
Lemma ResNet_init_BasicBlock_inr layers nc z g w rswd nl in_mod att_mod r :
  ResNet_init BasicBlock_cls layers nc z g w rswd nl in_mod att_mod = inr r ->
  exists n0 n1 n2 n3 rest d2,
    layers = n0 :: n1 :: n2 :: n3 :: rest /\
    rswd_or_default rswd = [false; false; d2] /\
    g = 1 /\ w = 64 /\ (Z.to_nat (n3 - 1) <> 0%nat -> d2 = false) /\
    let s0 := Attrs (norm_layer_or_default nl) 64 1 g w in
    let s1 := next_attrs s0 64 1 false in
    let s2 := next_attrs s1 128 2 false in
    let s3 := next_attrs s2 256 2 false in
    layer1 r = Sequential (first_block s0 64 1 false att_mod
                 :: repeat (next_block s0 64 att_mod) (Z.to_nat (n0 - 1))) /\
    layer2 r = Sequential (first_block s1 128 2 false att_mod
                 :: repeat (next_block s1 128 att_mod) (Z.to_nat (n1 - 1))) /\
    layer3 r = Sequential (first_block s2 256 2 false att_mod
                 :: repeat (next_block s2 256 att_mod) (Z.to_nat (n2 - 1))) /\
    layer4 r = Sequential (first_block s3 512 2 d2 att_mod
                 :: repeat (next_block s3 512 att_mod) (Z.to_nat (n3 - 1))).
Proof.
  intros H. unfold ResNet_init in H. fold (rswd_or_default rswd) in H.
  destruct (Nat.eqb_spec (length (rswd_or_default rswd)) 3) as [Hlen | Hlen];
    [| discriminate].
  destruct (rswd_or_default rswd) as [| d0 [| d1 [| d2 [| ? ?]]]];
    try discriminate Hlen.
  cbn [negb] in H.
  destruct layers as [| n0 [| n1 [| n2 [| n3 rest]]]].
  - discriminate H.
  - cbn [getitem nth_error rbind ok] in H.
    apply rbind_inr in H as ([l1 s1] & _ & H). discriminate H.
  - cbn [getitem nth_error rbind ok] in H.
    apply rbind_inr in H as ([l1 s1] & _ & H).
    apply rbind_inr in H as ([l2 s2] & _ & H). discriminate H.
  - cbn [getitem nth_error rbind ok] in H.
    apply rbind_inr in H as ([l1 s1] & _ & H).
    apply rbind_inr in H as ([l2 s2] & _ & H).
    apply rbind_inr in H as ([l3 s3] & _ & H). discriminate H.
  - cbn [getitem nth_error rbind ok] in H.
    apply rbind_inr in H as ([l1 s1] & H1 & H).
    apply rbind_inr in H as ([l2 s2] & H2 & H).
    apply rbind_inr in H as ([l3 s3] & H3 & H).
    apply rbind_inr in H as ([l4 s4] & H4 & H).
    injection H as <-. cbn [layer1 layer2 layer3 layer4].
    apply make_layer_BasicBlock_inr in H1 as (Hg & Hw & _ & _ & -> & ->).
    apply make_layer_BasicBlock_inr in H2 as (_ & _ & _ & _ & -> & ->).
    apply make_layer_BasicBlock_inr in H3 as (_ & _ & Hd0 & _ & -> & ->).
    apply make_layer_BasicBlock_inr in H4 as (_ & _ & Hd1 & Hd2 & -> & ->).
    cbn [groups_ base_width] in Hg, Hw.
    assert (d0 = false) as ->.
    { destruct d0; [| reflexivity]. cbn in Hd0. lia. }
    assert (d1 = false) as ->.
    { destruct d1; [| reflexivity]. cbn in Hd1. lia. }
    exists n0, n1, n2, n3, rest, d2.
    repeat (split; [first [reflexivity | assumption] |]).
    split; [| repeat split; reflexivity].
    intros Hn. specialize (Hd2 Hn). destruct d2; [| reflexivity].
    cbn in Hd2. lia.
Qed.



(** With the default norm layer and a [num_classes] that is not negative
    (so that the layers the constructor instantiates are ones the framework
    builds), [ResNet.__init__] with [BasicBlock] completes exactly when
    [groups = 1] and [width_per_group = 64], [layers] has four entries or
    more, and [replace_stride_with_dilation] (three entries) asks for no
    dilation, or for one in the last layer only and that layer has a single
    block. *)
Theorem ResNet_init_BasicBlock_completes_iff
    (layers : list Z) (nc : Z) (z : bool) (g w : Z)
    (rswd : option (list bool)) (nl : norm_layer_t)
    (in_mod att_mod : option string) :
  nl = None -> 0 <= nc ->
  (completes
     (ResNet_init BasicBlock_cls layers nc z g w rswd nl in_mod att_mod)
   <->
   g = 1 /\ w = 64 /\
   exists n0 n1 n2 n3 rest d2,
     layers = n0 :: n1 :: n2 :: n3 :: rest /\
     rswd_or_default rswd = [false; false; d2] /\
     (d2 = true -> n3 <= 1)).
Proof.
  intros _ _. split.
  - intros [r H]. apply ResNet_init_BasicBlock_inr in H
      as (n0 & n1 & n2 & n3 & rest & d2 & -> & Hr & -> & -> & Hd2 & _).
    repeat (split; [reflexivity |]).
    exists n0, n1, n2, n3, rest, d2. repeat (split; [assumption || reflexivity |]).
    intros ->. destruct (Z_le_gt_dec n3 1) as [Hle | Hgt]; [exact Hle |].
    assert (Z.to_nat (n3 - 1) <> 0%nat) as Hn by lia.
    specialize (Hd2 Hn). discriminate Hd2.
  - intros (-> & -> & n0 & n1 & n2 & n3 & rest & d2 & -> & Hr & Hd2).
    unfold completes, ResNet_init. fold (rswd_or_default rswd). rewrite Hr.
    cbn [length Nat.eqb negb getitem nth_error rbind ok].
    rewrite make_layer_BasicBlock_ok by (cbn; lia). cbn [rbind].
    rewrite make_layer_BasicBlock_ok by (cbn; lia). cbn [rbind].
    rewrite make_layer_BasicBlock_ok by (cbn; lia). cbn [rbind].
    rewrite make_layer_BasicBlock_ok.
    + cbn [rbind]. eexists. reflexivity.
    + reflexivity.
    + reflexivity.
    + cbn. lia.
    + intros Hn. destruct d2; cbn; [| lia]. specialize (Hd2 eq_refl). lia.
Qed.

Lemma ResNet_init_BasicBlock_completes_iff_witness :
  completes (ResNet_init BasicBlock_cls [2; 2; 2; 1] 1000 false 1 64
               (Some [false; false; true]) None None None)
  /\ ~ completes (resnet34 1000 false 1 64 (Some [false; false; true])
                           None None None).
Proof.
  split.
  - apply (proj2 (ResNet_init_BasicBlock_completes_iff [2; 2; 2; 1] 1000 false
                    1 64 (Some [false; false; true]) None None None
                    eq_refl ltac:(lia))).
    split; [reflexivity |]. split; [reflexivity |].
    exists 2, 2, 2, 1, [], true.
    split; [reflexivity |]. split; [reflexivity |]. intros _. lia.
  - intros H.
    apply (proj1 (ResNet_init_BasicBlock_completes_iff [3; 4; 6; 3] 1000 false
                    1 64 (Some [false; false; true]) None None None
                    eq_refl ltac:(lia))) in H.
    destruct H as (_ & _ & n0 & n1 & n2 & n3 & rest & d2 & Hl & Hr & Hd).
    injection Hl as <- <- <- <- <-. injection Hr as <-.
    specialize (Hd eq_refl). lia.
Defined.

(** Every residual layer has one block at least: [_make_layer] builds
    [max(1, blocks)] blocks, so a count of zero or below still gives one. *)
Theorem layer_block_counts layers nc z g w rswd nl in_mod att_mod r :
  ResNet_init BasicBlock_cls layers nc z g w rswd nl in_mod att_mod = inr r ->
  exists n0 n1 n2 n3 rest,
    layers = n0 :: n1 :: n2 :: n3 :: rest /\
    length (layer_children (layer1 r)) = Z.to_nat (Z.max 1 n0) /\
    length (layer_children (layer2 r)) = Z.to_nat (Z.max 1 n1) /\
    length (layer_children (layer3 r)) = Z.to_nat (Z.max 1 n2) /\
    length (layer_children (layer4 r)) = Z.to_nat (Z.max 1 n3).
Proof.
  intros H. apply ResNet_init_BasicBlock_inr in H
    as (n0 & n1 & n2 & n3 & rest & d2 & -> & _ & _ & _ & _ & H).
  cbn zeta in H. destruct H as (-> & -> & -> & ->).
  exists n0, n1, n2, n3, rest. split; [reflexivity |].
  cbn [layer_children length]. rewrite !repeat_length.
  repeat split; lia.
Qed.

Lemma layer_block_counts_witness :
  exists r,
    ResNet_init BasicBlock_cls [3; 0; (-2); 1] 10 false 1 64 None None None
                None = inr r /\
    length (layer_children (layer1 r)) = 3%nat /\
    length (layer_children (layer2 r)) = 1%nat /\
    length (layer_children (layer3 r)) = 1%nat /\
    length (layer_children (layer4 r)) = 1%nat.
Proof.
  eexists. split; [vm_compute; reflexivity |].
  destruct (layer_block_counts [3; 0; (-2); 1] 10 false 1 64 None None None
              None _ eq_refl)
    as (n0 & n1 & n2 & n3 & rest & Hl & H1 & H2 & H3 & H4).
  injection Hl as <- <- <- <- <-.
  repeat split; assumption.
Defined.

Lemma chained_app_eq (l1 l2 : list layer) : forall cin,
  chained cin (l1 ++ l2)
  = option_bind_Z (chained cin l1) (fun c => chained c l2).
Proof.
  induction l1 as [| b l1 IH]; intros cin; [reflexivity |].
  cbn [app chained]. destruct (block_channels b) as [[i o] |]; [| reflexivity].
  destruct (i =? cin); [apply IH | reflexivity].
Qed.

Lemma chained_repeat_next self planes att_mod n :
  chained planes (repeat (next_block self planes att_mod) n) = Some planes.
Proof.
  induction n as [| n IH]; [reflexivity |].
  cbn [repeat chained next_block block_channels conv3x3 in_channels
       out_channels]. rewrite Z.eqb_refl. exact IH.
Qed.

Lemma chained_layer self planes stride dilate att_mod n :
  chained (inplanes self)
          (first_block self planes stride dilate att_mod
           :: repeat (next_block self planes att_mod) n) = Some planes.
Proof.
  cbn [chained first_block block_channels conv3x3 in_channels out_channels].
  rewrite Z.eqb_refl. apply chained_repeat_next.
Qed.

(** The channels of a built backbone fit: the stem turns 1 channel (for
    [in_mod='Depth']) or 3 channels into 64, and from there on every block
    takes the channels the block before it gives, the four layers ending on
    64, 128, 256 and 512 channels. *)
Theorem backbone_channels_chain layers nc z g w rswd nl in_mod att_mod r :
  ResNet_init BasicBlock_cls layers nc z g w rswd nl in_mod att_mod = inr r ->
  (exists kw, conv1 r = CD_Conv2d kw /\
              in_channels kw = (if is_Depth in_mod then 1 else 3) /\
              out_channels kw = 64) /\
  chained 64 (layer_children (layer1 r)) = Some 64 /\
  chained 64 (layer_children (layer2 r)) = Some 128 /\
  chained 128 (layer_children (layer3 r)) = Some 256 /\
  chained 256 (layer_children (layer4 r)) = Some 512 /\
  chained 64 (layer_children (layer1 r) ++ layer_children (layer2 r)
              ++ layer_children (layer3 r) ++ layer_children (layer4 r))
  = Some 512.
Proof.
  intros H. pose proof H as H0.
  apply ResNet_init_BasicBlock_inr in H
    as (n0 & n1 & n2 & n3 & rest & d2 & -> & Hr & _ & _ & _ & H).
  cbn zeta in H. destruct H as (E1 & E2 & E3 & E4).
  split.
  { unfold ResNet_init in H0. fold (rswd_or_default rswd) in H0.
    rewrite Hr in H0. cbn [length Nat.eqb negb] in H0.
    apply rbind_inr in H0 as (? & _ & H0).
    apply rbind_inr in H0 as ([? ?] & _ & H0).
    apply rbind_inr in H0 as (? & _ & H0).
    apply rbind_inr in H0 as (? & _ & H0).
    apply rbind_inr in H0 as ([? ?] & _ & H0).
    apply rbind_inr in H0 as (? & _ & H0).
    apply rbind_inr in H0 as (? & _ & H0).
    apply rbind_inr in H0 as ([? ?] & _ & H0).
    apply rbind_inr in H0 as (? & _ & H0).
    apply rbind_inr in H0 as (? & _ & H0).
    apply rbind_inr in H0 as ([? ?] & _ & H0).
    injection H0 as <-. cbn [conv1].
    destruct (is_Depth in_mod); eexists; repeat split; reflexivity. }
  rewrite E1, E2, E3, E4. cbn [layer_children].
  assert (C1 := chained_layer (Attrs (norm_layer_or_default nl) 64 1 g w)
                  64 1 false att_mod (Z.to_nat (n0 - 1))).
  assert (C2 := chained_layer
                  (next_attrs (Attrs (norm_layer_or_default nl) 64 1 g w)
                     64 1 false)
                  128 2 false att_mod (Z.to_nat (n1 - 1))).
  assert (C3 := chained_layer
                  (next_attrs
                     (next_attrs (Attrs (norm_layer_or_default nl) 64 1 g w)
                        64 1 false) 128 2 false)
                  256 2 false att_mod (Z.to_nat (n2 - 1))).
  assert (C4 := chained_layer
                  (next_attrs
                     (next_attrs
                        (next_attrs
                           (Attrs (norm_layer_or_default nl) 64 1 g w)
                           64 1 false) 128 2 false) 256 2 false)
                  512 2 d2 att_mod (Z.to_nat (n3 - 1))).
  cbn [inplanes next_attrs] in C1, C2, C3, C4.
  repeat (split; [assumption |]).
  rewrite chained_app_eq, C1. cbn [option_bind_Z].
  rewrite chained_app_eq, C2. cbn [option_bind_Z].
  rewrite chained_app_eq, C3. cbn [option_bind_Z].
  exact C4.
Qed.

Lemma backbone_channels_chain_witness :
  exists r,
    resnet34 1000 false 1 64 None None (Some "Depth"%string) None = inr r /\
    (exists kw, conv1 r = CD_Conv2d kw /\ in_channels kw = 1 /\
                out_channels kw = 64) /\
    chained 64 (layer_children (layer1 r) ++ layer_children (layer2 r)
                ++ layer_children (layer3 r) ++ layer_children (layer4 r))
    = Some 512.
Proof.
  eexists. split; [vm_compute; reflexivity |].
  destruct (backbone_channels_chain [3; 4; 6; 3] 1000 false 1 64 None None
              (Some "Depth"%string) None _ eq_refl)
    as (Hstem & _ & _ & _ & _ & Hall).
  split; [exact Hstem | exact Hall].
Defined.

Lemma first_block_residual_compatible self planes stride dilate att_mod :
  residual_compatible (first_block self planes stride dilate att_mod) = true.
Proof.
  unfold first_block, residual_compatible, conv3x3, conv1x1.
  cbn [in_channels out_channels Arch.stride kernel_size].
  set (stride' := if dilate then 1 else stride).
  destruct (Z.eqb_spec stride' 1) as [Hs | Hs];
    destruct (Z.eqb_spec (inplanes self) planes) as [Hp | Hp];
    cbn [negb orb andb]; rewrite ?Z.eqb_refl; reflexivity.
Qed.

Lemma layer_residual_compatible self planes stride dilate att_mod n :
  forallb residual_compatible
          (first_block self planes stride dilate att_mod
           :: repeat (next_block self planes att_mod) n) = true.
Proof.
  cbn [forallb]. rewrite first_block_residual_compatible. cbn [andb].
  induction n as [| n IH]; [reflexivity |].
  cbn [repeat forallb]. rewrite IH.
  cbn [residual_compatible next_block conv3x3 in_channels out_channels
       Arch.stride]. rewrite Z.eqb_refl. reflexivity.
Qed.

(** In every block of a built backbone the identity branch fits the
    residual branch: a block without [downsample] keeps channels and
    resolution, and a [downsample] is a 1x1 convolution with the channels
    and the stride of the block's first convolution. *)
Theorem blocks_residual_compatible layers nc z g w rswd nl in_mod att_mod r :
  ResNet_init BasicBlock_cls layers nc z g w rswd nl in_mod att_mod = inr r ->
  forallb residual_compatible
    (layer_children (layer1 r) ++ layer_children (layer2 r)
     ++ layer_children (layer3 r) ++ layer_children (layer4 r)) = true.
Proof.
  intros H. apply ResNet_init_BasicBlock_inr in H
    as (n0 & n1 & n2 & n3 & rest & d2 & _ & _ & _ & _ & _ & H).
  cbn zeta in H. destruct H as (-> & -> & -> & ->).
  cbn [layer_children]. rewrite !forallb_app.
  rewrite !layer_residual_compatible. reflexivity.
Qed.

Lemma blocks_residual_compatible_witness :
  exists r,
    ResNet_init BasicBlock_cls [2; 2; 2; 1] 1000 false 1 64
                (Some [false; false; true]) None None None = inr r /\
    forallb residual_compatible
      (layer_children (layer1 r) ++ layer_children (layer2 r)
       ++ layer_children (layer3 r) ++ layer_children (layer4 r)) = true.
Proof.
  eexists. split; [vm_compute; reflexivity |].
  apply (blocks_residual_compatible [2; 2; 2; 1] 1000 false 1 64
           (Some [false; false; true]) None None None).
  reflexivity.
Defined.

Lemma built_block_no_Sim_AM att_mod m x :
  is_SimAM att_mod = false ->
  built_block BatchNorm2d att_mod m -> In x (modules m) ->
  is_Sim_AM_layer x = false.
Proof.
  intros Hatt (i & p & s & ds & -> & Hds) Hx.
  unfold conv2_of in Hx. rewrite Hatt in Hx.
  destruct Hds as [-> | (i' & o' & s' & ->)]; simpl in Hx;
    repeat (destruct Hx as [<- | Hx]; [reflexivity |]); destruct Hx.
Qed.

Lemma layer_no_Sim_AM att_mod ls x :
  is_SimAM att_mod = false ->
  Forall (built_block BatchNorm2d att_mod) ls ->
  In x (modules (Sequential ls)) -> is_Sim_AM_layer x = false.
Proof.
  intros Hatt Hls Hx.
  apply In_modules_Sequential in Hx as [-> | (m & Hm & Hx)]; [reflexivity |].
  rewrite Forall_forall in Hls.
  eapply built_block_no_Sim_AM; [exact Hatt | | exact Hx].
  apply Hls. apply list_elem_of_In. exact Hm.
Qed.

(** With the default norm layer, a built backbone holds an attention layer
    exactly when [att_mod] is the string ['SimAM']: for [None] and for any
    other string no [Sim_AM] is built anywhere. *)
Theorem Sim_AM_iff_att_mod layers nc z g w rswd in_mod att_mod r :
  ResNet_init BasicBlock_cls layers nc z g w rswd None in_mod att_mod = inr r ->
  ((exists planes, In (Sim_AM planes) (ResNet_modules r))
   <-> att_mod = Some "SimAM"%string).
Proof.
  intros H. split.
  - intros [planes Hin].
    destruct (is_SimAM att_mod) eqn:Hatt.
    + destruct att_mod as [a |]; [| discriminate Hatt].
      cbn [is_SimAM] in Hatt. apply String.eqb_eq in Hatt. now subst.
    + exfalso. apply ResNet_init_inv in H.
      destruct H as ((kw & Hc1 & Hk) & Hbn & Hrelu & Hmp &
                     (l1 & l2 & l3 & l4 & E1 & E2 & E3 & E4 & HF) &
                     Hap & Hfc & Hup).
      simpl in Hbn, HF.
      apply Forall_app in HF as [F1 HF]. apply Forall_app in HF as [F2 HF].
      apply Forall_app in HF as [F3 F4].
      assert (Hno : is_Sim_AM_layer (Sim_AM planes) = false); [| discriminate].
      unfold ResNet_modules, ResNet_children in Hin.
      apply in_flat_map in Hin as (c & Hc & Hm).
      simpl in Hc.
      rewrite Hc1, Hbn, Hrelu, Hmp, E1, E2, E3, E4, Hap, Hfc, Hup in Hc.
      destruct Hc as [<- | [<- | [<- | [<- | Hc]]]];
        try (simpl in Hm; destruct Hm as [Hm | []]; discriminate Hm).
      destruct Hc as [<- | [<- | [<- | [<- | Hc]]]];
        try (eapply layer_no_Sim_AM; [exact Hatt | | exact Hm]; eassumption).
      destruct Hc as [<- | [<- | [<- | []]]];
        simpl in Hm; destruct Hm as [Hm | []]; discriminate Hm.
  - intros ->. exists 64.
    apply ResNet_init_BasicBlock_inr in H
      as (n0 & n1 & n2 & n3 & rest & d2 & _ & _ & _ & _ & _ & H).
    cbn zeta in H. destruct H as (E1 & _).
    unfold ResNet_modules. apply in_flat_map.
    exists (layer1 r). split.
    + unfold ResNet_children. cbn. tauto.
    + rewrite E1. cbn. tauto.
Qed.

Lemma Sim_AM_iff_att_mod_witness :
  (exists r, resnet18 None (Some "simam"%string) = inr r /\
             ~ exists planes, In (Sim_AM planes) (ResNet_modules r))
  /\ (exists r, resnet18 None (Some "SimAM"%string) = inr r /\
                exists planes, In (Sim_AM planes) (ResNet_modules r)).
Proof.
  split.
  - eexists. split; [vm_compute; reflexivity |].
    intros Hin.
    apply (proj1 (Sim_AM_iff_att_mod [2; 2; 2; 2] 1000 false 1 64 None None
                    (Some "simam"%string) _ eq_refl)) in Hin.
    discriminate Hin.
  - eexists. split; [vm_compute; reflexivity |].
    apply (proj2 (Sim_AM_iff_att_mod [2; 2; 2; 2] 1000 false 1 64 None None
                    (Some "SimAM"%string) _ eq_refl)).
    reflexivity.
Defined.

End ArchExtra.

(** ** More on the losses *)

Module LossExtra.

Import Tensor Loss LossProofs.
Local Open Scope R_scope.

Lemma clamped_log_bounds x : x <= 1 -> -100 <= clamped_log x <= 0.
Proof.
  intros Hx. unfold clamped_log. destruct (Rle_dec x 0) as [H0 | H0]; [lra |].
  split; [apply Rmax_r |].
  apply Rmax_lub; [| lra].
  destruct (Req_dec x 1) as [-> | Hne]; [rewrite ln_1; lra |].
  rewrite <- ln_1. left. apply ln_increasing; lra.
Qed.

Lemma bce_bounds x y : 0 <= x <= 1 -> 0 <= y <= 1 -> 0 <= bce x y <= 100.
Proof.
  intros Hx Hy. unfold bce.
  assert (H1 := clamped_log_bounds x ltac:(lra)).
  assert (H2 := clamped_log_bounds (1 - x) ltac:(lra)).
  split; nra.
Qed.

Lemma in_unit_interval_spec x : in_unit_interval x = true <-> 0 <= x <= 1.
Proof.
  split; [| apply in_unit_interval_true].
  unfold in_unit_interval.
  destruct (Rle_dec 0 x); [| discriminate].
  destruct (Rle_dec x 1); [| discriminate]. intros _. lra.
Qed.

Lemma binary_cross_entropy_inr input target x :
  binary_cross_entropy input target = inr x ->
  shape input = shape target /\
  Forall (fun v => 0 <= v <= 1) (data input) /\
  x = tzip bce input target.
Proof.
  unfold binary_cross_entropy, shape_eqb. intros H.
  destruct (bool_decide_reflect (shape target = shape input)) as [Hs | Hs];
    [| discriminate].
  cbn [negb] in H.
  destruct (forallb in_unit_interval (data input)) eqn:Hr; [| discriminate].
  injection H as <-. split; [symmetry; exact Hs |]. split; [| reflexivity].
  rewrite Forall_forall. intros v Hv.
  apply in_unit_interval_spec.
  rewrite forallb_forall in Hr. apply Hr. apply list_elem_of_In. exact Hv.
Qed.

(** The result of [forward] is an average of products
    [alpha * u^gamma * bce], whatever the attributes are. *)
Lemma CMFLoss_forward_factor self a b t x y :
  binary_cross_entropy a t = ok x ->
  binary_cross_entropy b t = ok y ->
  exists ua ub,
    CMFLoss_forward self a b t
    = ok (0.5 * mean_R (zip_with Rmult
                          (map (fun v => alpha self * v)
                               (map (fun v => v ^ gamma self) ua))
                          (data x))
          + 0.5 * mean_R (zip_with Rmult
                            (map (fun v => alpha self * v)
                                 (map (fun v => v ^ gamma self) ub))
                            (data y))).
Proof.
  intros Hx Hy. unfold CMFLoss_forward. rewrite Hx, Hy. cbn [rbind ok].
  destruct (sg self), (binary self); do 2 eexists; reflexivity.
Qed.

(** On targets within [0, 1], [forward] returns exactly when both inputs
    have the shape of the targets and only entries within [0, 1]: no
    choice of the attributes and no value the scores can take in that range
    (0 and 1 included, where a logarithm is infinite) makes it raise. *)
Theorem CMFLoss_forward_completes_iff (self : CMFLoss) (a b t : tensor) :
  Forall (fun y => 0 <= y <= 1) (data t) ->
  (completes (CMFLoss_forward self a b t) <->
   shape a = shape t /\ shape b = shape t /\
   Forall (fun v => 0 <= v <= 1) (data a) /\
   Forall (fun v => 0 <= v <= 1) (data b)).
Proof.
  intros _. split.
  - intros [v H]. unfold CMFLoss_forward in H.
    apply rbind_inr in H as (x & Hx & H).
    apply rbind_inr in H as (y & Hy & _).
    apply binary_cross_entropy_inr in Hx as (Sa & Ra & _).
    apply binary_cross_entropy_inr in Hy as (Sb & Rb & _).
    repeat split; assumption.
  - intros (Sa & Sb & Ra & Rb).
    destruct (CMFLoss_forward_factor self a b t _ _
                (binary_cross_entropy_ok a t Sa Ra)
                (binary_cross_entropy_ok b t Sb Rb)) as (ua & ub & E).
    eexists. exact E.
Qed.

Lemma CMFLoss_forward_completes_iff_witness :
  completes (CMFLoss_forward CMFLoss_default
               (MkTensor [2; 1]%nat [0; 1]) (MkTensor [2; 1]%nat [0.5; 0.5])
               (MkTensor [2; 1]%nat [1; 0]))
  /\ ~ completes (CMFLoss_forward CMFLoss_default
                    (MkTensor [2]%nat [0.5; 0.5])
                    (MkTensor [2; 1]%nat [0.5; 0.5])
                    (MkTensor [2; 1]%nat [1; 0])).
Proof.
  split.
  - apply (proj2 (CMFLoss_forward_completes_iff CMFLoss_default
                    (MkTensor [2; 1]%nat [0; 1])
                    (MkTensor [2; 1]%nat [0.5; 0.5])
                    (MkTensor [2; 1]%nat [1; 0])
                    ltac:(repeat constructor; simpl; lra))).
    split; [reflexivity |]. split; [reflexivity |].
    split; repeat constructor; simpl; lra.
  - intros H.
    apply (proj1 (CMFLoss_forward_completes_iff CMFLoss_default
                    (MkTensor [2]%nat [0.5; 0.5])
                    (MkTensor [2; 1]%nat [0.5; 0.5])
                    (MkTensor [2; 1]%nat [1; 0])
                    ltac:(repeat constructor; simpl; lra))) in H.
    destruct H as (Hs & _). discriminate Hs.
Defined.

Lemma sum_R_nonneg l : Forall (fun v => 0 <= v) l -> 0 <= sum_R l.
Proof.
  induction 1 as [| v l Hv _ IH]; cbn [sum_R foldr]; [lra |].
  fold (sum_R l). lra.
Qed.

Lemma mean_R_nonneg l : Forall (fun v => 0 <= v) l -> 0 <= mean_R l.
Proof.
  intros H. unfold mean_R. apply sum_R_nonneg in H.
  destruct l as [| v l]; [cbn; lra |].
  apply Rmult_le_pos; [exact H |].
  left. apply Rinv_0_lt_compat. apply lt_0_INR. cbn. lia.
Qed.

Lemma zip_with_bce_nonneg (a t : list R) :
  Forall (fun v => 0 <= v <= 1) a -> Forall (fun v => 0 <= v <= 1) t ->
  Forall (fun v => 0 <= v <= 100) (zip_with bce a t).
Proof.
  intros Ha. revert t. induction Ha as [| x a Hx _ IH]; intros t Ht;
    [constructor |].
  destruct Ht as [| y t Hy Ht]; cbn [zip_with]; constructor.
  - apply bce_bounds; assumption.
  - apply IH. exact Ht.
Qed.

Lemma zip_with_Rmult_nonneg (l1 l2 : list R) :
  Forall (fun v => 0 <= v) l1 -> Forall (fun v => 0 <= v) l2 ->
  Forall (fun v => 0 <= v) (zip_with Rmult l1 l2).
Proof.
  intros H1. revert l2. induction H1 as [| x l1 Hx _ IH]; intros l2 H2;
    [constructor |].
  destruct H2 as [| y l2 Hy H2]; cbn [zip_with]; constructor.
  - apply Rmult_le_pos; assumption.
  - apply IH. exact H2.
Qed.

Lemma even_pow_nonneg (v : R) (n : nat) : Nat.Even n -> 0 <= v ^ n.
Proof.
  intros [k ->]. rewrite pow_mult. apply pow_le. apply pow2_ge_0.
Qed.

(** With [alpha >= 0] and an even [gamma] (the defaults are 1 and 2) the
    loss on a non-empty batch with targets within [0, 1] is never
    negative. *)
Theorem CMFLoss_forward_nonneg (self : CMFLoss) (a b t : tensor) (v : R) :
  0 <= alpha self -> Nat.Even (gamma self) ->
  data t <> [] -> Forall (fun y => 0 <= y <= 1) (data t) ->
  CMFLoss_forward self a b t = ok v ->
  0 <= v.
Proof.
  intros Hal Hg _ Ht H.
  pose proof H as H0. unfold CMFLoss_forward in H0.
  apply rbind_inr in H0 as (x & Hx & H0).
  apply rbind_inr in H0 as (y & Hy & _).
  destruct (CMFLoss_forward_factor self a b t x y Hx Hy) as (ua & ub & E).
  rewrite E in H. injection H as <-.
  apply binary_cross_entropy_inr in Hx as (_ & Ra & ->).
  apply binary_cross_entropy_inr in Hy as (_ & Rb & ->).
  cbn [tzip data].
  assert (Hfac : forall u, Forall (fun v => 0 <= v)
            (map (fun v => alpha self * v)
                 (map (fun v => v ^ gamma self) u))).
  { intros u. rewrite Forall_forall. intros w Hw.
    apply list_elem_of_In in Hw. apply in_map_iff in Hw as (w' & <- & Hw).
    apply in_map_iff in Hw as (w'' & <- & _).
    apply Rmult_le_pos; [exact Hal | apply even_pow_nonneg; exact Hg]. }
  assert (Hbce : forall c, Forall (fun v => 0 <= v <= 1) c ->
            Forall (fun v => 0 <= v) (zip_with bce c (data t))).
  { intros c Hc. eapply Forall_impl; [apply zip_with_bce_nonneg; eassumption |].
    intros w; simpl; lra. }
  assert (0 <= mean_R (zip_with Rmult
             (map (fun v => alpha self * v)
                  (map (fun v => v ^ gamma self) ua))
             (zip_with bce (data a) (data t)))).
  { apply mean_R_nonneg, zip_with_Rmult_nonneg; [apply Hfac | apply Hbce, Ra]. }
  assert (0 <= mean_R (zip_with Rmult
             (map (fun v => alpha self * v)
                  (map (fun v => v ^ gamma self) ub))
             (zip_with bce (data b) (data t)))).
  { apply mean_R_nonneg, zip_with_Rmult_nonneg; [apply Hfac | apply Hbce, Rb]. }
  lra.
Qed.

Lemma CMFLoss_forward_nonneg_witness :
  0 <= spec_cmfl [0.5; 1] [0.25; 0.75] [1; 0].
Proof.
  apply (CMFLoss_forward_nonneg CMFLoss_default
           (MkTensor [2; 1]%nat [0.5; 1]) (MkTensor [2; 1]%nat [0.25; 0.75])
           (MkTensor [2; 1]%nat [1; 0])).
  - simpl. lra.
  - exists 1%nat. reflexivity.
  - discriminate.
  - repeat constructor; simpl; lra.
  - apply CMFLoss_forward_default_unit;
      [reflexivity | reflexivity | |]; repeat constructor; simpl; lra.
Defined.

Lemma spec_p_range x t :
  0 <= x <= 1 -> 0 <= t <= 1 -> 0 < spec_p x t <= 1.
Proof.
  intros Hx Ht. unfold spec_p. split; [apply exp_pos |].
  destruct (bce_bounds x t Hx Ht) as [H0 _].
  destruct (Req_dec (bce x t) 0) as [-> | Hne].
  - rewrite Ropp_0, exp_0. lra.
  - rewrite <- exp_0. left. apply exp_increasing. lra.
Qed.

Lemma quotient_range (N D : R) :
  0 < D -> 0 <= N <= 2 * D -> 0 <= N / D <= 2.
Proof.
  intros HD HN. unfold Rdiv. split.
  - apply Rmult_le_pos; [lra | left; apply Rinv_0_lt_compat; exact HD].
  - apply Rmult_le_reg_r with D; [exact HD |].
    rewrite Rmult_assoc, Rinv_l by lra. lra.
Qed.

Lemma spec_w_range pa pb :
  0 < pa <= 1 -> 0 < pb <= 1 ->
  0 <= spec_w_a pa pb <= 2 /\ 0 <= spec_w_b pa pb <= 2.
Proof.
  intros Ha Hb. unfold spec_w_a, spec_w_b.
  assert (He : 0 < 1e-9) by lra. set (e := 1e-9) in *.
  assert (Hab : 0 <= pa * pb <= 1) by nra.
  assert (Xa : 0 <= (pb + e) * (pa * pb) <= pb + e).
  { split; [apply Rmult_le_pos; lra |].
    rewrite <- (Rmult_1_r (pb + e)) at 2.
    apply Rmult_le_compat_l; lra. }
  assert (Xb : 0 <= (pa + e) * (pa * pb) <= pa + e).
  { split; [apply Rmult_le_pos; lra |].
    rewrite <- (Rmult_1_r (pa + e)) at 2.
    apply Rmult_le_compat_l; lra. }
  split; (apply quotient_range; [lra |]).
  - replace ((pb + e) * (2 * pa * pb)) with (2 * ((pb + e) * (pa * pb)))
      by ring. lra.
  - replace ((pa + e) * (2 * pa * pb)) with (2 * ((pa + e) * (pa * pb)))
      by ring. lra.
Qed.

Lemma spec_focal_range x_a x_b t :
  0 <= x_a <= 1 -> 0 <= x_b <= 1 -> 0 <= t <= 1 ->
  0 <= spec_focal_a x_a x_b t <= 100 /\ 0 <= spec_focal_b x_a x_b t <= 100.
Proof.
  intros Ha Hb Ht. unfold spec_focal_a, spec_focal_b.
  destruct (spec_w_range _ _ (spec_p_range x_a t Ha Ht)
                             (spec_p_range x_b t Hb Ht)) as [Wa Wb].
  destruct (bce_bounds x_a t Ha Ht) as [Ba0 Ba1].
  destruct (bce_bounds x_b t Hb Ht) as [Bb0 Bb1].
  set (wa := spec_w_a _ _) in *. set (wb := spec_w_b _ _) in *.
  set (ba := bce x_a t) in *. set (bb := bce x_b t) in *.
  clearbody wa wb ba bb.
  assert (Sa : 0 <= (1 - wa) ^ 2 <= 1).
  { split; [apply pow2_ge_0 |].
    replace ((1 - wa) ^ 2) with (1 - wa * (2 - wa)) by ring.
    assert (0 <= wa * (2 - wa)) by (apply Rmult_le_pos; lra). lra. }
  assert (Sb : 0 <= (1 - wb) ^ 2 <= 1).
  { split; [apply pow2_ge_0 |].
    replace ((1 - wb) ^ 2) with (1 - wb * (2 - wb)) by ring.
    assert (0 <= wb * (2 - wb)) by (apply Rmult_le_pos; lra). lra. }
  set (sa := (1 - wa) ^ 2) in *. set (sb := (1 - wb) ^ 2) in *.
  clearbody sa sb.
  split; split; nra.
Qed.

Lemma map3_spec_focal_range (a b t : list R) :
  Forall (fun v => 0 <= v <= 1) a -> Forall (fun v => 0 <= v <= 1) b ->
  Forall (fun v => 0 <= v <= 1) t ->
  Forall (fun v => 0 <= v <= 100) (map3 spec_focal_a a b t) /\
  Forall (fun v => 0 <= v <= 100) (map3 spec_focal_b a b t).
Proof.
  intros Ha. revert b t.
  induction Ha as [| x a Hx _ IH]; intros b t Hb Ht;
    [split; constructor |].
  destruct Hb as [| y b Hy Hb]; [split; constructor |].
  destruct Ht as [| z t Hz Ht]; [split; constructor |].
  destruct (IH b t Hb Ht) as [IHa IHb].
  destruct (spec_focal_range x y z Hx Hy Hz) as [Fa Fb].
  cbn [map3]. split; constructor; assumption.
Qed.

Lemma sum_R_bounds (M : R) l :
  Forall (fun v => 0 <= v <= M) l -> 0 <= sum_R l <= M * INR (length l).
Proof.
  induction 1 as [| v l Hv _ IH]; [cbn; lra |].
  cbn [sum_R foldr]. fold (sum_R l).
  change (length (v :: l)) with (S (length l)). rewrite S_INR. lra.
Qed.

Lemma mean_R_bounds (M : R) l :
  0 <= M -> Forall (fun v => 0 <= v <= M) l -> 0 <= mean_R l <= M.
Proof.
  intros HM H. apply sum_R_bounds in H. unfold mean_R.
  destruct l as [| v l]; [cbn; lra |].
  assert (Hn : 0 < INR (length (v :: l))) by (apply lt_0_INR; cbn; lia).
  assert (Hi : 0 < / INR (length (v :: l))) by (apply Rinv_0_lt_compat, Hn).
  assert (He : INR (length (v :: l)) * / INR (length (v :: l)) = 1)
    by (apply Rinv_r; lra).
  unfold Rdiv. set (n := INR (length (v :: l))) in *. set (i := / n) in *.
  split; [nra |].
  assert (sum_R (v :: l) * i <= M * n * i) by nra. nra.
Qed.

(** With the default attributes the loss of a non-empty batch with targets
    within [0, 1] lies between 0 and 100. *)
Theorem CMFLoss_default_bounds (a b t : tensor) (v : R) :
  data t <> [] -> Forall (fun y => 0 <= y <= 1) (data t) ->
  CMFLoss_forward CMFLoss_default a b t = ok v ->
  0 <= v <= 100.
Proof.
  intros _ Ht H. pose proof H as H0. unfold CMFLoss_forward in H0.
  apply rbind_inr in H0 as (x & Hx & H0).
  apply rbind_inr in H0 as (y & Hy & _).
  apply binary_cross_entropy_inr in Hx as (Sa & Ra & _).
  apply binary_cross_entropy_inr in Hy as (Sb & Rb & _).
  rewrite (CMFLoss_forward_default_unit a b t Sa Sb Ra Rb) in H.
  injection H as <-. unfold spec_cmfl.
  destruct (map3_spec_focal_range _ _ _ Ra Rb Ht) as [Fa Fb].
  apply mean_R_bounds in Fa; [| lra]. apply mean_R_bounds in Fb; [| lra].
  lra.
Qed.

Lemma CMFLoss_default_bounds_witness :
  0 <= spec_cmfl [0.5; 1] [0.25; 0.75] [1; 0] <= 100.
Proof.
  apply (CMFLoss_default_bounds
           (MkTensor [2; 1]%nat [0.5; 1]) (MkTensor [2; 1]%nat [0.25; 0.75])
           (MkTensor [2; 1]%nat [1; 0])).
  - discriminate.
  - repeat constructor; simpl; lra.
  - apply CMFLoss_forward_default_unit;
      [reflexivity | reflexivity | |]; repeat constructor; simpl; lra.
Defined.

Lemma bce_perfect y : binary_target y -> bce y y = 0.
Proof.
  assert (H1 : clamped_log 1 = 0).
  { unfold clamped_log. destruct (Rle_dec 1 0); [lra |].
    rewrite ln_1. apply Rmax_left. lra. }
  intros [-> | ->]; unfold bce.
  - replace (1 - 0) with 1 by ring. rewrite H1. ring.
  - rewrite H1. ring.
Qed.

Lemma zip_with_Rmult_zero (u z : list R) :
  Forall (fun v => v = 0) z -> sum_R (zip_with Rmult u z) = 0.
Proof.
  intros Hz. revert u. induction Hz as [| y z -> _ IH]; intros u.
  - destruct u; reflexivity.
  - destruct u as [| x u]; [reflexivity |].
    cbn [zip_with sum_R foldr]. fold (sum_R (zip_with Rmult u z)).
    rewrite IH. ring.
Qed.

(** Scores that equal the targets give the loss 0, whatever the
    attributes: on a non-empty batch of targets in {0, 1},
    [forward(t, t, t) = 0]. *)
Theorem CMFLoss_forward_perfect (self : CMFLoss) (t : tensor) :
  data t <> [] -> Forall binary_target (data t) ->
  CMFLoss_forward self t t t = ok 0.
Proof.
  intros _ Ht.
  assert (Hr : Forall (fun v => 0 <= v <= 1) (data t)).
  { eapply Forall_impl; [exact Ht |]. intros y [-> | ->]; simpl; lra. }
  pose proof (binary_cross_entropy_ok t t eq_refl Hr) as Hx.
  destruct (CMFLoss_forward_factor self t t t _ _ Hx Hx) as (ua & ub & E).
  rewrite E. cbn [tzip data]. unfold mean_R.
  assert (Hz : Forall (fun v => v = 0) (zip_with bce (data t) (data t))).
  { clear -Ht. induction Ht as [| y l Hy _ IH]; cbn [zip_with]; constructor;
      [apply bce_perfect; exact Hy | exact IH]. }
  rewrite !zip_with_Rmult_zero by exact Hz.
  unfold ok. f_equal. unfold Rdiv. ring.
Qed.

Lemma CMFLoss_forward_perfect_witness :
  CMFLoss_forward CMFLoss_default (MkTensor [3; 1]%nat [1; 0; 1])
                  (MkTensor [3; 1]%nat [1; 0; 1])
                  (MkTensor [3; 1]%nat [1; 0; 1]) = ok 0.
Proof.
  apply (CMFLoss_forward_perfect CMFLoss_default
           (MkTensor [3; 1]%nat [1; 0; 1])).
  - discriminate.
  - constructor; [right; reflexivity |].
    constructor; [left; reflexivity |].
    constructor; [right; reflexivity | constructor].
Defined.

(** The flag [sg] does not change the value [forward] computes. *)
Lemma CMFLoss_forward_sg self a b t :
  CMFLoss_forward self a b t
  = CMFLoss_forward (MkCMFLoss (alpha self) (gamma self) (binary self)
                               (multiplier self) false) a b t.
Proof.
  destruct self as [al g bin m [|]]; [| reflexivity].
  unfold CMFLoss_forward, detach.
  destruct (binary_cross_entropy a t) as [e | x]; [reflexivity |].
  destruct (binary_cross_entropy b t) as [e | y]; reflexivity.
Qed.

Lemma CMFLoss_forward_swap self a b t v :
  CMFLoss_forward self a b t = ok v -> CMFLoss_forward self b a t = ok v.
Proof.
  rewrite (CMFLoss_forward_sg self a b t), (CMFLoss_forward_sg self b a t).
  rewrite !CMFLoss_forward_unfold.
  destruct (binary_cross_entropy a t) as [e | x];
    destruct (binary_cross_entropy b t) as [e' | y];
    cbn [rbind]; try discriminate.
  intros [= <-]. unfold ok. f_equal. apply CMFLoss_value_swap.
Qed.

(** For every [lamb] and all attributes of the focal loss (with [sg=True]
    too), the total loss is
    [(1-lamb)*CrossEntropyLoss(r, targets) + 2*lamb*CMFLoss(p, q, targets)],
    exceptions included; so its value is the same for [(p, q)] and for
    [(q, p)]. *)
Theorem Total_loss_forward_doubles
    (CrossEntropyLoss : tensor -> tensor -> result R)
    (self : Total_loss) (p q r targets : tensor) :
  Total_loss_forward CrossEntropyLoss self p q r targets
  = (let* loss_r := CrossEntropyLoss r targets in
     let* l := CMFLoss_forward (criterion_cmfl self) p q targets in
     ok ((1 - lamb self) * loss_r + 2 * lamb self * l))
  /\ (forall v,
        Total_loss_forward CrossEntropyLoss self p q r targets = ok v <->
        Total_loss_forward CrossEntropyLoss self q p r targets = ok v).
Proof.
  assert (Hform : forall p q,
     Total_loss_forward CrossEntropyLoss self p q r targets
     = (let* loss_r := CrossEntropyLoss r targets in
        let* l := CMFLoss_forward (criterion_cmfl self) p q targets in
        ok ((1 - lamb self) * loss_r + 2 * lamb self * l))).
  { intros p' q'. unfold Total_loss_forward, loss_pq_term.
    destruct (CrossEntropyLoss r targets) as [e | loss_r]; [reflexivity |].
    cbn [rbind].
    destruct (CMFLoss_forward (criterion_cmfl self) p' q' targets)
      as [e | l] eqn:E; [reflexivity |].
    cbn [rbind]. rewrite (CMFLoss_forward_swap _ _ _ _ _ E).
    unfold ok, rbind. f_equal. ring. }
  split; [apply Hform |].
  intros v. rewrite (Hform p q), (Hform q p).
  destruct (CrossEntropyLoss r targets) as [e | loss_r]; [tauto |].
  cbn [rbind].
  destruct (CMFLoss_forward (criterion_cmfl self) p q targets) as [e | l] eqn:E.
  - destruct (CMFLoss_forward (criterion_cmfl self) q p targets)
      as [e' | l'] eqn:E'.
    + cbn [rbind]. split; discriminate.
    + apply CMFLoss_forward_swap in E'. rewrite E in E'. discriminate E'.
  - rewrite (CMFLoss_forward_swap _ _ _ _ _ E). tauto.
Qed.

Lemma Total_loss_forward_doubles_witness :
  let a := MkTensor [2; 1]%nat [0.5; 1] in
  let b := MkTensor [2; 1]%nat [0.25; 0.75] in
  let t := MkTensor [2; 1]%nat [1; 0] in
  let CE := fun _ _ : tensor => ok 0 in
  Total_loss_forward CE Total_loss_default b a a t
  = ok ((1 - 0.7) * 0 + 2 * 0.7 * spec_cmfl [0.5; 1] [0.25; 0.75] [1; 0]).
Proof.
  intros a b t CE.
  destruct (Total_loss_forward_doubles CE Total_loss_default a b a t)
    as [Hform Hsym].
  apply (proj1 (Hsym _)). rewrite Hform. cbn [rbind CE].
  change (criterion_cmfl Total_loss_default) with CMFLoss_default.
  rewrite (CMFLoss_forward_default_unit a b t);
    [reflexivity | reflexivity | reflexivity | |];
    repeat constructor; simpl; lra.
Defined.

Lemma binary_real_weights (al : R) (g : nat) : forall (t W B : list R),
  length W = length t -> length B = length t ->
  Forall (fun y => y = 1) t ->
  zip_with Rmult
    (map (fun v => al * v)
       (map (fun v => v ^ g)
          (map (fun v => 1 - v)
             (zip_with Rmult W (map (fun v => 1 - v) t)))))
    B = map (fun v => al * v) B.
Proof.
  induction t as [| y t IH]; intros W B HW HB Ht.
  - destruct B; [| discriminate HB]. destruct W; reflexivity.
  - destruct W as [| w W]; [discriminate HW |].
    destruct B as [| b B]; [discriminate HB |].
    inversion Ht as [| ? ? Hy Ht']; subst.
    cbn [map zip_with]. f_equal.
    + replace (1 - w * (1 - 1)) with 1 by ring. rewrite pow1. ring.
    + apply IH; [| | assumption]; cbn in HW, HB; lia.
Qed.

(** In binary mode ([binary=True]) the cross-modal weight is switched off
    on real samples: on a batch whose targets are all 1 the loss is the
    plain cross-entropy of the two branches, scaled by [alpha]. *)
Theorem CMFLoss_binary_real_samples (al : R) (g : nat) (mult : R) (sgf : bool)
    (a b t : tensor) :
  shape a = shape t -> shape b = shape t ->
  length (data a) = length (data t) -> length (data b) = length (data t) ->
  Forall (fun v => 0 <= v <= 1) (data a) ->
  Forall (fun v => 0 <= v <= 1) (data b) ->
  Forall (fun y => y = 1) (data t) ->
  CMFLoss_forward (MkCMFLoss al g true mult sgf) a b t
  = ok (0.5 * tmean (smul al (tzip bce a t))
        + 0.5 * tmean (smul al (tzip bce b t))).
Proof.
  intros Sa Sb La Lb Ra Rb Ht.
  rewrite CMFLoss_forward_sg. cbn [alpha gamma binary multiplier].
  unfold CMFLoss_forward.
  rewrite (binary_cross_entropy_ok a t Sa Ra).
  rewrite (binary_cross_entropy_ok b t Sb Rb).
  cbn [rbind ok sg binary alpha gamma multiplier].
  unfold tmean, tmul, tdiv, tadd, tadds, smul, ssub, tpow, texp, tneg, tzip,
    tmap. cbn [data shape].
  rewrite !binary_real_weights;
    [reflexivity | | | assumption | | | assumption];
    repeat rewrite ?length_zip_with, ?length_map; lia.
Qed.

Lemma CMFLoss_binary_real_samples_witness :
  let a := MkTensor [2; 1]%nat [0.5; 1] in
  let b := MkTensor [2; 1]%nat [0.25; 0.75] in
  let t := MkTensor [2; 1]%nat [1; 1] in
  CMFLoss_forward (MkCMFLoss 1 2 true 2 false) a b t
  = ok (0.5 * tmean (smul 1 (tzip bce a t))
        + 0.5 * tmean (smul 1 (tzip bce b t))).
Proof.
  intros a b t.
  apply (CMFLoss_binary_real_samples 1 2 2 false a b t);
    try reflexivity; repeat constructor; simpl; lra.
Defined.

End LossExtra.

(** ** More on the forward pass *)

Module ModelExtra.

Import Tensor Model ModelProofs.
Local Open Scope nat_scope.

(** For backbones that answer a batch of [B] samples with feature maps of
    shape [B, 960, h, w], the forward pass returns exactly when [B] is not
    one; the tuple it returns has [gap] of shape [B, 1920] and three scores
    of shape [B, 1]. *)
Theorem RGBD_forward_completes_iff (self : RGBD_model)
    (x_rgb x_d x_d0 y_rgb y_d : tensor) (B h w h' w' : nat) :
  getitem_channel0 x_d = ok x_d0 ->
  net (rgb_net self) x_rgb = ok y_rgb ->
  shape y_rgb = [B; 960; h; w] -> h * w <> 0 ->
  net (depth_net self) x_d0 = ok y_d ->
  shape y_d = [B; 960; h'; w'] -> h' * w' <> 0 ->
  (completes (RGBD_forward self x_rgb x_d) <-> B <> 1) /\
  (forall gap r p q,
     RGBD_forward self x_rgb x_d = ok (gap, r, p, q) ->
     shape gap = [B; 1920] /\ shape r = [B; 1] /\
     shape p = [B; 1] /\ shape q = [B; 1]).
Proof.
  intros Hx Hr Hsr Hhw Hd Hsd Hhw'.
  assert (Hone : B = 1 -> ~ completes (RGBD_forward self x_rgb x_d)).
  { intros -> [res H].
    destruct (stream_forward_shapes _ _ _ _ _ _ Hr Hsr Hhw)
      as (gap_rgb & p & Ep & Sg & _).
    destruct (stream_forward_shapes _ _ _ _ _ _ Hd Hsd Hhw')
      as (gap_d & q & Eq & _ & _).
    cbn [Nat.eqb] in Sg.
    unfold RGBD_forward in H. rewrite Hx in H. cbn [rbind ok] in H.
    rewrite Ep, Eq in H. cbn [rbind ok] in H.
    unfold cat_dim1 in H. rewrite Sg in H. discriminate H. }
  split.
  - split.
    + intros Hc HB. exact (Hone HB Hc).
    + intros HB.
      destruct (RGBD_forward_returns self x_rgb x_d x_d0 y_rgb y_d B h w h' w'
                  HB Hx Hr Hsr Hhw Hd Hsd Hhw')
        as (gap & r & p & q & E & _).
      eexists. exact E.
  - intros gap r p q E.
    destruct (Nat.eq_dec B 1) as [HB | HB].
    + exfalso. apply (Hone HB). eexists. exact E.
    + destruct (RGBD_forward_returns self x_rgb x_d x_d0 y_rgb y_d B h w h' w'
                  HB Hx Hr Hsr Hhw Hd Hsd Hhw')
        as (gap' & r' & p' & q' & E' & Sg & SR & Sp & Sq).
      rewrite E in E'. injection E' as <- <- <- <-.
      repeat split; assumption.
Qed.

Lemma RGBD_forward_completes_iff_witness :
  let x_rgb := MkTensor [2; 3; 128; 128] (repeat 0%R (2 * (3 * (128 * 128)))) in
  let x_d := MkTensor [2; 3; 128; 128] (repeat 0%R (2 * (3 * (128 * 128)))) in
  completes (RGBD_forward constant_model x_rgb x_d).
Proof.
  intros x_rgb x_d.
  set (x_d0 := MkTensor [2; 1; 128; 128]
                 (flat_map (take (1 * (128 * (128 * 1))))
                           (chunks 2 (3 * (128 * (128 * 1))) (data x_d)))).
  set (y := MkTensor [2; 960; 4; 4] (repeat 0%R (2 * (960 * 16)))).
  destruct (RGBD_forward_completes_iff constant_model x_rgb x_d x_d0 y y
              2 4 4 4 4) as [Hiff _];
    [reflexivity | reflexivity | reflexivity | discriminate
     | reflexivity | reflexivity | discriminate |].
  apply Hiff. discriminate.
Defined.

Lemma sigmoid_open_unit (v : R) : open_unit (1 / (1 + exp (- v)))%R.
Proof.
  unfold open_unit. pose proof (exp_pos (- v)) as He.
  assert (Hd : (0 < 1 + exp (- v))%R) by lra.
  assert (Hi : (0 < / (1 + exp (- v)))%R) by (apply Rinv_0_lt_compat, Hd).
  unfold Rdiv. rewrite Rmult_1_l. split; [exact Hi |].
  rewrite <- Rinv_1. apply Rinv_lt_contravar; lra.
Qed.

Lemma sigmoid_scores (x : tensor) : scores (sigmoid x).
Proof.
  unfold scores, sigmoid, tmap. cbn [data].
  apply Forall_map. apply Forall_forall. intros v _. apply sigmoid_open_unit.
Qed.

Lemma classifier_forward_scores n theta x y :
  classifier_forward n theta x = ok y -> scores y.
Proof.
  unfold classifier_forward. intros H.
  apply rbind_inr in H as (z & _ & H). injection H as <-.
  apply sigmoid_scores.
Qed.

Lemma stream_forward_scores self x gap p :
  stream_forward self x = ok (gap, p) -> scores gap /\ scores p.
Proof.
  unfold stream_forward. intros H.
  apply rbind_inr in H as (y & _ & H).
  apply rbind_inr in H as (pooled & _ & H).
  apply rbind_inr in H as (p' & Hp & H). injection H as <- <-.
  split; [apply sigmoid_scores | eapply classifier_forward_scores, Hp].
Qed.

Lemma Forall_chunks (P : R -> Prop) (size : nat) : forall count l,
  Forall P l -> Forall (Forall P) (chunks count size l).
Proof.
  induction count as [| count IH]; intros l Hl; cbn [chunks]; constructor.
  - apply Forall_take, Hl.
  - apply IH, Forall_drop, Hl.
Qed.

Lemma Forall_zip_with_app (P : R -> Prop) (ls1 : list (list R)) :
  forall ls2,
  Forall (Forall P) ls1 -> Forall (Forall P) ls2 ->
  Forall (Forall P) (zip_with app ls1 ls2).
Proof.
  induction ls1 as [| l1 ls1 IH]; intros ls2 H1 H2; [constructor |].
  destruct ls2 as [| l2 ls2]; [constructor |].
  inversion H1; inversion H2; subst. cbn [zip_with]. constructor.
  - apply Forall_app. split; assumption.
  - apply IH; assumption.
Qed.

Lemma cat_dim1_scores x y z :
  cat_dim1 x y = ok z -> scores x -> scores y -> scores z.
Proof.
  unfold cat_dim1, scores. intros H Hx Hy.
  destruct (shape x) as [| bx [| nx rx]]; try discriminate H.
  destruct (shape y) as [| by_ [| ny ry]]; try discriminate H.
  destruct (negb _); [discriminate H |]. injection H as <-. cbn [data].
  apply Forall_concat, Forall_zip_with_app; apply Forall_chunks; assumption.
Qed.

(** Whatever the backbones and the weights are, every entry of the four
    tensors a forward pass returns lies strictly between 0 and 1: the three
    scores come out of a sigmoid, and [gap] joins two vectors that do. *)
Theorem RGBD_forward_scores (self : RGBD_model) (x_rgb x_d : tensor)
    (gap r p q : tensor) :
  RGBD_forward self x_rgb x_d = ok (gap, r, p, q) ->
  scores gap /\ scores r /\ scores p /\ scores q.
Proof.
  intros H. apply RGBD_forward_inr in H
    as (x_d0 & gap_rgb & gap_d & _ & Hp & Hq & Hg & Hr).
  apply stream_forward_scores in Hp as [Sg Sp].
  apply stream_forward_scores in Hq as [Sg' Sq].
  split; [eapply cat_dim1_scores; eassumption |].
  split; [eapply classifier_forward_scores, Hr |].
  split; assumption.
Qed.

Lemma RGBD_forward_scores_witness :
  let x_rgb := MkTensor [2; 3; 128; 128] (repeat 0%R (2 * (3 * (128 * 128)))) in
  let x_d := MkTensor [2; 3; 128; 128] (repeat 0%R (2 * (3 * (128 * 128)))) in
  exists gap r p q,
    RGBD_forward constant_model x_rgb x_d = ok (gap, r, p, q) /\
    scores gap /\ scores r /\ scores p /\ scores q.
Proof.
  intros x_rgb x_d.
  set (x_d0 := MkTensor [2; 1; 128; 128]
                 (flat_map (take (1 * (128 * (128 * 1))))
                           (chunks 2 (3 * (128 * (128 * 1))) (data x_d)))).
  set (y := MkTensor [2; 960; 4; 4] (repeat 0%R (2 * (960 * 16)))).
  destruct (RGBD_forward_returns constant_model x_rgb x_d x_d0 y y 2 4 4 4 4)
    as (gap & r & p & q & E & _);
    [discriminate | reflexivity | reflexivity | reflexivity | discriminate
     | reflexivity | reflexivity | discriminate |].
  exists gap, r, p, q. split; [exact E |].
  exact (RGBD_forward_scores constant_model x_rgb x_d gap r p q E).
Defined.

(** Reading the slice: block [b] of the slice holds the first [n] elements
    of block [b] of the input. *)
Lemma lookup_first_of_chunks (n s : nat) : n <= s ->
  forall B (l : list R) b j,
    b < B -> j < n -> B * s <= length l ->
    flat_map (take n) (chunks B s l) !! (b * n + j) = l !! (b * s + j).
Proof.
  intros Hns. induction B as [| B IH]; intros l b j Hb Hj Hl; [lia |].
  cbn [chunks flat_map].
  assert (Hlen : length (take n (take s l)) = n).
  { rewrite !length_take. nia. }
  destruct b as [| b].
  - cbn [Nat.mul Nat.add]. rewrite lookup_app_l by lia.
    rewrite !lookup_take_lt by lia. reflexivity.
  - rewrite lookup_app_r by (rewrite Hlen; nia). rewrite Hlen.
    replace (S b * n + j - n) with (b * n + j) by nia.
    rewrite IH; [| lia | exact Hj | rewrite length_drop; nia].
    rewrite lookup_drop. f_equal. nia.
Qed.

Lemma length_first_of_chunks (n s : nat) : n <= s ->
  forall B (l : list R),
    B * s <= length l -> length (flat_map (take n) (chunks B s l)) = B * n.
Proof.
  intros Hns. induction B as [| B IH]; intros l Hl; [reflexivity |].
  cbn [chunks flat_map]. rewrite length_app, !length_take.
  rewrite IH by (rewrite length_drop; nia). nia.
Qed.

(** On a well-shaped input of shape [B, C, H, W] with a channel at least,
    [x[:,0:1,:,:]] is the well-shaped tensor of shape [B, 1, H, W] whose
    element [(b, 0, h, w)] is the element [(b, 0, h, w)] of the input. *)
Theorem getitem_channel0_spec (x : tensor) (B C H W : nat) :
  shape x = [B; C; H; W] -> 1 <= C -> well_shaped x ->
  exists y,
    getitem_channel0 x = ok y /\
    shape y = [B; 1; H; W] /\ well_shaped y /\
    forall b h w, b < B -> h < H -> w < W ->
                  get4 y b 0 h w = get4 x b 0 h w.
Proof.
  intros Hs HC Hwf. unfold well_shaped in Hwf. rewrite Hs in Hwf.
  cbn [numel_of foldr] in Hwf.
  unfold getitem_channel0. rewrite Hs. rewrite Nat.min_r by exact HC.
  eexists. split; [reflexivity |]. split; [reflexivity |].
  cbn [numel_of foldr]. split.
  - unfold well_shaped. cbn [data shape numel_of foldr].
    rewrite length_first_of_chunks; nia.
  - intros b h w Hb Hh Hw. unfold get4. rewrite Hs. cbn [shape data].
    replace (((b * 1 + 0) * H + h) * W + w)
      with (b * (1 * (H * (W * 1))) + (h * W + w)) by nia.
    rewrite lookup_first_of_chunks; [| nia | exact Hb | nia | nia].
    f_equal. nia.
Qed.

Lemma getitem_channel0_spec_witness :
  exists y,
    getitem_channel0 (MkTensor [2; 2; 1; 2] [1; 2; 3; 4; 5; 6; 7; 8]%R)
    = ok y /\
    shape y = [2; 1; 1; 2] /\
    get4 y 1 0 0 1 = Some 6%R.
Proof.
  destruct (getitem_channel0_spec
              (MkTensor [2; 2; 1; 2] [1; 2; 3; 4; 5; 6; 7; 8]%R) 2 2 1 2)
    as (y & E & Sy & _ & Hget); [reflexivity | lia | reflexivity |].
  exists y. split; [exact E |]. split; [exact Sy |].
  rewrite (Hget 1 0 1) by lia. reflexivity.
Defined.

End ModelExtra.

(** ** The scores of the model as inputs of the loss *)

Module FitExtra.

Import Tensor.
Local Open Scope R_scope.



End FitExtra.

(** ** More on the evaluation loop *)

Module EvalExtra.

Import Tensor Eval.

Lemma sigmoid_above_half (v : R) :
  (0.5 < 1 / (1 + exp (- v)) <-> 0 < v)%R.
Proof.
  pose proof (exp_pos (- v)) as He.
  assert (Hd : (0 < 1 + exp (- v))%R) by lra.
  assert (Hq : (0.5 < 1 / (1 + exp (- v)) <-> exp (- v) < 1)%R).
  { split; intros H.
    - apply (Rmult_lt_compat_r (1 + exp (- v))) in H; [| exact Hd].
      unfold Rdiv in H. rewrite Rmult_1_l, Rinv_l in H by lra. lra.
    - apply (Rmult_lt_reg_r (1 + exp (- v))); [exact Hd |].
      unfold Rdiv. rewrite Rmult_1_l, Rinv_l by lra. lra. }
  rewrite Hq. rewrite <- exp_0. split; intros H.
  - apply exp_lt_inv in H. lra.
  - apply exp_increasing. lra.
Qed.

(** The decision of the evaluation loop is the sign of the joint logit:
    for a forward pass that returns, the joint score [r] is the sigmoid of
    [z = Linear(1920, 1)(gap)], and [torch.where(r > 0.5, 1., 0.)] is 1
    exactly where [z > 0] and 0 exactly where [z <= 0] (exact
    arithmetic). *)
Theorem predict_is_sign_of_logit (self : Model.RGBD_model)
    (x_rgb x_d gap r p q : tensor) :
  Model.RGBD_forward self x_rgb x_d = ok (gap, r, p, q) ->
  exists z,
    Model.Linear 1920 1 (Model.classifier self) gap = ok z /\
    r = Model.sigmoid z /\
    forall i v, data z !! i = Some v ->
      (data (predict r) !! i = Some 1%R <-> (0 < v)%R) /\
      (data (predict r) !! i = Some 0%R <-> (v <= 0)%R).
Proof.
  intros H. apply ModelProofs.RGBD_forward_inr in H
    as (x_d0 & gap_rgb & gap_d & _ & _ & _ & _ & Hr).
  unfold Model.classifier_forward in Hr.
  apply rbind_inr in Hr as (z & Hz & Hr). injection Hr as <-.
  exists z. split; [exact Hz |]. split; [reflexivity |].
  intros i v Hv. unfold predict, Model.sigmoid, tmap. cbn [data].
  rewrite !list_lookup_fmap, Hv. cbn.
  pose proof (sigmoid_above_half v) as Hs.
  destruct (Rlt_dec 0.5 (1 / (1 + exp (- v)))) as [Hlt | Hge];
    split; split; intros H'.
  - apply Hs, Hlt.
  - reflexivity.
  - injection H' as H'. lra.
  - apply Hs in Hlt. lra.
  - injection H' as H'. lra.
  - exfalso. apply Hge, Hs, H'.
  - destruct (Rle_dec v 0) as [Hle | Hgt]; [exact Hle |].
    exfalso. apply Hge, Hs. lra.
  - reflexivity.
Qed.

Lemma predict_is_sign_of_logit_witness :
  let x := MkTensor [2; 3; 4; 4]%nat (repeat 0%R 96) in
  exists gap r p q z,
    Model.RGBD_forward Model.constant_model x x = ok (gap, r, p, q) /\
    Model.Linear 1920 1 (Model.classifier Model.constant_model) gap = ok z /\
    r = Model.sigmoid z /\
    forall i v, data z !! i = Some v ->
      (data (predict r) !! i = Some 1%R <-> (0 < v)%R).
Proof.
  intros x.
  set (x_d0 := MkTensor [2; 1; 4; 4]%nat
                 (flat_map (take (1 * (4 * (4 * 1))))
                    (Model.chunks 2 (3 * (4 * (4 * 1))) (data x)))).
  set (y := MkTensor [2; 960; 4; 4]%nat (repeat 0%R (2 * (960 * 16)))).
  destruct (ModelProofs.RGBD_forward_returns Model.constant_model x x x_d0 y y
              2 4 4 4 4)
    as (gap & r & p & q & E & _);
    [discriminate | reflexivity | reflexivity | reflexivity | discriminate
     | reflexivity | reflexivity | discriminate |].
  destruct (predict_is_sign_of_logit Model.constant_model x x gap r p q E)
    as (z & Hz & Hr & Hrule).
  exists gap, r, p, q, z. split; [exact E |]. split; [exact Hz |].
  split; [exact Hr |].
  intros i v Hv. exact (proj1 (Hrule i v Hv)).
Defined.

Lemma batch_lines_app (o1 o2 : list event) :
  batch_lines (o1 ++ o2) = batch_lines o1 ++ batch_lines o2.
Proof.
  induction o1 as [| ev o1 IH]; [reflexivity |].
  destruct ev; cbn [app batch_lines]; rewrite IH; reflexivity.
Qed.

Lemma eval_batch_inr model acc i batch lines v :
  eval_batch model acc i batch = inr (lines, v) ->
  length lines = 5%nat /\ batch_lines lines = [(i, v)].
Proof.
  unfold eval_batch. destruct batch as [[rgb_map depth_map] label]. intros H.
  apply rbind_inr in H as (label' & _ & H).
  apply rbind_inr in H as ([[[gap r] p] q] & _ & H).
  injection H as <- <-. split; reflexivity.
Qed.

Lemma eval_loop_inr model acc : forall batches i stdout updates out us,
  eval_loop model acc i batches stdout updates = (out, ok us) ->
  exists vs,
    us = updates ++ vs /\ length vs = length batches /\
    length out = (length stdout + 5 * length batches)%nat /\
    batch_lines out
    = batch_lines stdout ++ zip (seq i (length batches)) vs.
Proof.
  induction batches as [| b rest IH]; intros i stdout updates out us H;
    cbn [eval_loop] in H.
  - injection H as <- <-. exists []. cbn. rewrite !app_nil_r.
    repeat split; lia.
  - destruct (eval_batch model acc i b) as [e | [lines v]] eqn:Eb;
      [discriminate |].
    apply eval_batch_inr in Eb as [Hlen Hlines].
    apply IH in H as (vs & -> & Hvs & Hout & Hbl).
    exists (v :: vs). rewrite <- app_assoc. split; [reflexivity |].
    split; [cbn; lia |]. split.
    + rewrite Hout, length_app, Hlen. cbn [length]. lia.
    + rewrite Hbl, batch_lines_app, Hlines, <- app_assoc. reflexivity.
Qed.

(** A run of the loop that gets through a test set of [n] batches prints
    five lines per batch, passes [n] values to [acc.update], and its
    ['Batch: i ACC: ...'] lines carry the indices 0, 1, ..., n-1 with
    exactly those values, in order. *)
Theorem eval_loop_completes (model : Model.RGBD_model) (acc : meter)
    (batches : list (tensor * tensor * tensor))
    (out : list event) (updates : list R) :
  eval_loop model acc 0 batches [] [] = (out, ok updates) ->
  length updates = length batches /\
  length out = (5 * length batches)%nat /\
  batch_lines out = zip (seq 0 (length batches)) updates.
Proof.
  intros H. apply eval_loop_inr in H as (vs & -> & Hvs & Hout & Hbl).
  cbn [app length batch_lines] in *. repeat split; assumption.
Qed.

(** The loop stops at the first batch that raises: the exception ends the
    run, the later batches are not evaluated, and the output is what the
    batches before it printed. *)
Theorem eval_loop_stops_at_first_error (model : Model.RGBD_model)
    (acc : meter) (before : list (tensor * tensor * tensor))
    (batch : tensor * tensor * tensor)
    (after : list (tensor * tensor * tensor)) (e : exn) :
  forall i stdout updates out us,
  eval_loop model acc i before stdout updates = (out, ok us) ->
  eval_batch model acc (i + length before) batch = inl e ->
  eval_loop model acc i (before ++ batch :: after) stdout updates
  = (out, raise e).
Proof.
  induction before as [| b rest IH]; intros i stdout updates out us H He;
    cbn [eval_loop app] in *.
  - injection H as <- <-. rewrite Nat.add_0_r in He. rewrite He. reflexivity.
  - destruct (eval_batch model acc i b) as [e' | [lines v]];
      [discriminate |].
    eapply IH; [exact H |].
    replace (S i + length rest)%nat with (i + S (length rest))%nat by lia.
    exact He.
Qed.

(** A batch of two samples gets through the model that stands in. *)
Lemma constant_model_batch_of_two (acc : meter) (i : nat) :
  let x := MkTensor [2; 3; 4; 4]%nat (repeat 0%R 96) in
  let label := MkTensor [2]%nat [1; 0]%R in
  exists lines v,
    eval_batch Model.constant_model acc i (x, x, label) = inr (lines, v).
Proof.
  intros x label.
  set (x_d0 := MkTensor [2; 1; 4; 4]%nat
                 (flat_map (take (1 * (4 * (4 * 1))))
                    (Model.chunks 2 (3 * (4 * (4 * 1))) (data x)))).
  set (y := MkTensor [2; 960; 4; 4]%nat (repeat 0%R (2 * (960 * 16)))).
  destruct (ModelProofs.RGBD_forward_returns Model.constant_model x x x_d0 y y
              2 4 4 4 4)
    as (gap & r & p & q & E & _);
    [discriminate | reflexivity | reflexivity | reflexivity | discriminate
     | reflexivity | reflexivity | discriminate |].
  unfold eval_batch.
  change (reshape_label label) with (ok (MkTensor [2; 1]%nat [1; 0]%R)).
  cbn [rbind ok]. rewrite E. cbn [rbind ok]. do 2 eexists. reflexivity.
Qed.

Lemma eval_loop_completes_witness :
  let x := MkTensor [2; 3; 4; 4]%nat (repeat 0%R 96) in
  let label := MkTensor [2]%nat [1; 0]%R in
  let acc := MkMeter (fun _ _ => 1%R) (fun _ => 1%R) in
  exists out updates,
    eval_loop Model.constant_model acc 0 [(x, x, label); (x, x, label)] [] []
    = (out, ok updates) /\
    length updates = 2%nat /\ length out = 10%nat /\
    batch_lines out = zip [0%nat; 1%nat] updates.
Proof.
  intros x label acc.
  destruct (constant_model_batch_of_two acc 0) as (l0 & v0 & E0).
  destruct (constant_model_batch_of_two acc 1) as (l1 & v1 & E1).
  fold x label in E0, E1.
  assert (E : eval_loop Model.constant_model acc 0
                [(x, x, label); (x, x, label)] [] []
              = (([] ++ l0) ++ l1, ok (([] ++ [v0]) ++ [v1]))).
  { cbn [eval_loop]. rewrite E0, E1. reflexivity. }
  do 2 eexists. split; [exact E |].
  exact (eval_loop_completes Model.constant_model acc
           [(x, x, label); (x, x, label)] _ _ E).
Defined.

Lemma eval_loop_stops_at_first_error_witness :
  let x := MkTensor [2; 3; 4; 4]%nat (repeat 0%R 96) in
  let label := MkTensor [2]%nat [1; 0]%R in
  let x1 := MkTensor [1; 3; 4; 4]%nat (repeat 0%R 48) in
  let label1 := MkTensor [1]%nat [1]%R in
  let acc := MkMeter (fun _ _ => 1%R) (fun _ => 1%R) in
  exists out,
    eval_loop Model.constant_model acc 0
              [(x, x, label); (x1, x1, label1); (x, x, label)] [] []
    = (out, raise (IndexError
         "Dimension out of range (expected to be in range of [-1, 0], but got 1)"))
    /\ length out = 5%nat.
Proof.
  intros x label x1 label1 acc.
  destruct (constant_model_batch_of_two acc 0) as (l0 & v0 & E0).
  fold x label in E0.
  assert (E : eval_loop Model.constant_model acc 0 [(x, x, label)] [] []
              = ([] ++ l0, ok ([] ++ [v0]))).
  { cbn [eval_loop]. rewrite E0. reflexivity. }
  exists ([] ++ l0). split.
  - apply (eval_loop_stops_at_first_error Model.constant_model acc
             [(x, x, label)] (x1, x1, label1) [(x, x, label)] _ 0 [] []
             _ _ E).
    lazy. reflexivity.
  - apply EvalExtra.eval_batch_inr in E0 as [Hlen _]. exact Hlen.
Defined.

End EvalExtra.
